(** * send_slack.py: Slack notification for new union papers

    A shallow embedding of [src/send_slack.py] and the properties of its
    record store, message formatter, notifier and orchestrator.

    Conventions of the embedding.
    - A Python [str] is a Rocq [string] holding its UTF-8 encoding.  The
      three characters the script replaces are ASCII, and byte-wise
      lexicographic order on UTF-8 is code-point order, so [str.replace],
      [in] and [<] on [str] are the byte-wise operations below.
    - A value read from a CSV row is a [str] or [None] ([csv.DictReader]
      fills the missing fields of a short row with [None]).
    - A CSV file is the list of rows the [csv] module writes to it, which
      are the rows it reads from the file opened with [newline='']; quoting
      is the library's business.  The script reads both its files in text
      mode without [newline='']: every carriage return inside a field,
      alone or before a line feed, reaches the [csv] module as one line
      feed ([open_text]).  The ledger is written with [newline=''], so it
      is stored as given.
    - A file that exists can be opened, decoded and parsed: the faults of
      [open] and of the [csv] parser are outside the embedding, and so is
      what [main] does after them.
    - Functions that can raise return a [result]; functions that touch the
      files, the environment or the network thread a [world].
    - [print] is not modelled: nothing below observes the console. *)

From Stdlib Require Import String Ascii List ZArith Lia Bool.
From Stdlib Require Import DecimalString Sorting.Permutation.
From stdpp Require Import gmap strings list sorting.

Open Scope string_scope.

(** ** Python values and exceptions *)

Inductive value :=
  | PNone
  | PStr (s : string).

#[global] Instance value_eq_dec : EqDecision value.
Proof. solve_decision. Defined.

Definition value_to_option (v : value) : option string :=
  match v with PNone => None | PStr s => Some s end.

Definition value_of_option (o : option string) : value :=
  match o with None => PNone | Some s => PStr s end.

#[global] Instance value_countable : Countable value.
Proof.
  apply (inj_countable' value_to_option value_of_option).
  intros []; reflexivity.
Defined.

(** Truth value of [None] and of a [str]: only a non-empty string is true. *)
Definition truthy (v : value) : bool :=
  match v with
  | PNone => false
  | PStr s => negb (String.eqb s "")
  end.

Definition is_str (v : value) : bool :=
  match v with
  | PNone => false
  | PStr _ => true
  end.

(** The string of a [str] value. *)
Definition str_of (v : value) : string :=
  match v with
  | PNone => ""
  | PStr s => s
  end.

(** [f"{v}"] *)
Definition format_value (v : value) : string :=
  match v with
  | PNone => "None"
  | PStr s => s
  end.

Inductive exn :=
  | KeyError (key : string)
  | TypeError
  | UnicodeDecodeError
  | SystemExit (code : Z).

Inductive result (A : Type) :=
  | Ok (a : A)
  | Raise (e : exn).
Arguments Ok {A} a.
Arguments Raise {A} e.

Definition rbind {A B} (r : result A) (k : A → result B) : result B :=
  match r with
  | Ok a => k a
  | Raise e => Raise e
  end.

(** ** Strings *)

(** [s.replace(old, new)] for a one-character [old]. *)
Fixpoint replace (old : ascii) (new : string) (s : string) : string :=
  match s with
  | EmptyString => EmptyString
  | String c s' =>
      if Ascii.eqb c old then new ++ replace old new s'
      else String c (replace old new s')
  end.

(** [t.startswith(p)] *)
Fixpoint startswith (p t : string) : bool :=
  match p, t with
  | EmptyString, _ => true
  | String _ _, EmptyString => false
  | String a p', String b t' => Ascii.eqb a b && startswith p' t'
  end.

(** [p in t] *)
Fixpoint contains (p t : string) : bool :=
  startswith p t ||
  match t with
  | EmptyString => false
  | String _ t' => contains p t'
  end.

(** The text a file opened in text mode without [newline=''] hands over:
    [\r\n] and a lone [\r] both become [\n]. *)
Fixpoint universal_newlines (s : string) : string :=
  match s with
  | EmptyString => EmptyString
  | String c s' =>
      if Ascii.eqb c "013" then
        String "010"
          match s' with
          | EmptyString => EmptyString
          | String c' s'' =>
              if Ascii.eqb c' "010" then universal_newlines s''
              else universal_newlines s'
          end
      else String c (universal_newlines s')
  end.

(** The carriage return, and the texts that hold none. *)
Definition CR : string := String "013"%char EmptyString.

Definition no_cr (s : string) : Prop := contains CR s = false.

(** [str(n)] for a natural number. *)
Definition str_of_nat (n : nat) : string :=
  NilEmpty.string_of_uint (Nat.to_uint n).

(** ** Message formatter: escaping *)

Definition escape_slack_text (text : value) : string :=
  if negb (truthy text) then ""
  else
    let text := replace "&" "&amp;" (str_of text) in
    let text := replace "<" "&lt;" text in
    let text := replace ">" "&gt;" text in
    text.

(** The entity of one character, for the one-pass reading of the escape. *)
Definition entity (c : ascii) : string :=
  if Ascii.eqb c "&" then "&amp;"
  else if Ascii.eqb c "<" then "&lt;"
  else if Ascii.eqb c ">" then "&gt;"
  else String c EmptyString.

Fixpoint escape_pass (s : string) : string :=
  match s with
  | EmptyString => EmptyString
  | String c s' => entity c ++ escape_pass s'
  end.

(** The same three replacements with the ampersand done last. *)
Definition escape_ampersand_last (text : string) : string :=
  replace "&" "&amp;" (replace ">" "&gt;" (replace "<" "&lt;" text)).

(** ** Sorting

    [list.sort] and [sorted] are stable and compare keys with [<] only.
    Comparing [None] with anything raises [TypeError].  With
    [reverse=True] the list is reversed, sorted ascending and reversed
    again, which keeps records with equal keys in their original order. *)

Definition lt_value (a b : value) : result bool :=
  match a, b with
  | PStr x, PStr y => Ok (String.ltb x y)
  | _, _ => Raise TypeError
  end.

Section Sort.
Context {A : Type} (key : A → value).

Fixpoint insert_sorted (x : A) (l : list A) : result (list A) :=
  match l with
  | [] => Ok [x]
  | y :: l' =>
      rbind (lt_value (key y) (key x)) (fun below =>
      if below : bool
      then rbind (insert_sorted x l') (fun l'' => Ok (y :: l''))
      else Ok (x :: y :: l'))
  end.

Fixpoint sort_stable (l : list A) : result (list A) :=
  match l with
  | [] => Ok []
  | x :: l' => rbind (sort_stable l') (insert_sorted x)
  end.

(** [l.sort(key=key, reverse=reverse)] *)
Definition list_sort (reverse : bool) (l : list A) : result (list A) :=
  if reverse
  then rbind (sort_stable (rev l)) (fun s => Ok (rev s))
  else sort_stable l.
End Sort.

(** [sorted(l)] *)
Definition sorted (l : list value) : result (list value) :=
  list_sort (fun v => v) false l.

(** ** Record store: tables, dictionaries, the world *)

Abbreviation row := (list string).
Abbreviation table := (list row).

Abbreviation paper := (gmap string value).

(** [d.get(k, default)] *)
Definition dict_get (d : paper) (k : string) (default : value) : value :=
  match d !! k with
  | Some v => v
  | None => default
  end.

(** One row of [csv.DictReader]: [dict(zip(fieldnames, row))], then the
    fields the row lacks set to [None].  The surplus fields of a long row
    go under the key [None], which no lookup of the script reaches. *)
Fixpoint zip_row (fieldnames : list string) (r : row) (d : paper) : paper :=
  match fieldnames, r with
  | [], _ => d
  | k :: ks, [] => zip_row ks [] (<[k := PNone]> d)
  | k :: ks, v :: vs => zip_row ks vs (<[k := PStr v]> d)
  end.

Definition is_blank (r : row) : bool :=
  match r with
  | [] => true
  | _ :: _ => false
  end.

(** [list(csv.DictReader(f))]: the first row names the fields, blank rows
    after it are skipped. *)
Definition DictReader (t : table) : list paper :=
  match t with
  | [] => []
  | fieldnames :: rows =>
      map (fun r => zip_row fieldnames r ∅)
          (List.filter (fun r => negb (is_blank r)) rows)
  end.

(** The rows of a file as the [csv] module gets them from
    [open(csv_path, 'r', encoding='utf-8')]. *)
Definition open_text (f : table) : table :=
  map (map universal_newlines) f.

(** The field [csv.writer] writes for a value: [None] becomes the empty
    string. *)
Definition csv_field (v : value) : string :=
  match v with
  | PNone => ""
  | PStr s => s
  end.

(** *** Slack messages *)

Inductive text_object :=
  | PlainText (text : string) (emoji : bool)
  | Mrkdwn (text : string).

Inductive block :=
  | BHeader (text : text_object)
  | BSection (text : text_object)
  | BDivider
  | BContext (elements : list text_object).

Record message := Message {
  msg_text : string;
  msg_blocks : list block
}.

(** *** The outside world *)

(** What one call of [urllib.request.urlopen] (with the statements around
    it in the [try] body) does. *)
Inductive outcome :=
  | Responded (status : Z) (body : list Byte.byte)
  | RaisedHTTPError (code : Z) (reason : string) (body : list Byte.byte)
  | RaisedURLError (reason : string)
  | RaisedOther (description : string).

Record world := World {
  files : gmap string table;
  environ : gmap string string;
  (** [datetime.now().strftime("%B %d, %Y")] *)
  today : string;
  (** the answer of the network to a POST of a message to a URL *)
  network : string → message → outcome;
  (** the POSTs attempted so far, latest first *)
  posted : list (string * message)
}.

Definition set_file (path : string) (t : table) (w : world) : world :=
  World (<[path := t]> (files w)) (environ w) (today w) (network w) (posted w).

Definition log_post (url : string) (m : message) (w : world) : world :=
  World (files w) (environ w) (today w) (network w) ((url, m) :: posted w).

(** State and exceptions. *)
Definition M (A : Type) : Type := world → result A * world.

Definition raise {A} (e : exn) : M A := fun w => (Raise e, w).

Definition bind {A B} (m : M A) (k : A → M B) : M B :=
  fun w =>
    match m w with
    | (Ok a, w') => k a w'
    | (Raise e, w') => (Raise e, w')
    end.

Definition lift {A} (r : result A) : M A := fun w => (r, w).

Notation "'let*' x ':=' m 'in' k" := (bind m (fun x => k))
  (at level 10, x name, m at level 100, k at level 200).

(** *** Bytes to text *)

Definition is_continuation (b : N) : bool := (128 <=? b)%N && (b <=? 191)%N.

Definition between (lo hi b : N) : bool := (lo <=? b)%N && (b <=? hi)%N.

(** Well-formed UTF-8 (no overlong forms, no surrogates, nothing above
    U+10FFFF), the byte sequences [bytes.decode('utf-8')] accepts. *)
Fixpoint utf8_valid (l : list N) : bool :=
  match l with
  | [] => true
  | b0 :: l1 =>
      if (b0 <=? 127)%N then utf8_valid l1
      else
        match l1 with
        | [] => false
        | b1 :: l2 =>
            if between 194 223 b0 then is_continuation b1 && utf8_valid l2
            else
              match l2 with
              | [] => false
              | b2 :: l3 =>
                  if between 224 239 b0 then
                    (if (b0 =? 224)%N then between 160 191 b1
                     else if (b0 =? 237)%N then between 128 159 b1
                     else is_continuation b1)
                    && is_continuation b2 && utf8_valid l3
                  else
                    match l3 with
                    | [] => false
                    | b3 :: l4 =>
                        between 240 244 b0
                        && (if (b0 =? 240)%N then between 144 191 b1
                            else if (b0 =? 244)%N then between 128 143 b1
                            else is_continuation b1)
                        && is_continuation b2 && is_continuation b3
                        && utf8_valid l4
                    end
              end
        end
  end.

(** [body.decode('utf-8')] *)
Definition decode_utf8 (body : list Byte.byte) : result string :=
  if utf8_valid (map Byte.to_N body)
  then Ok (string_of_list_byte body)
  else Raise UnicodeDecodeError.

(** ** Record store: the three operations *)

Definition publication_date_key (x : paper) : value :=
  dict_get x "publication_date" (PStr "").

(** The date of a record whose [publication_date] is a [str]. *)
Definition publication_date (x : paper) : string :=
  str_of (publication_date_key x).

(** The date of a record read off the record itself: its
    [publication_date] when that is a string, [''] when the record has no
    such field. *)
Definition date_of (x : paper) : string :=
  match x !! "publication_date" with
  | Some (PStr d) => d
  | _ => ""
  end.

Definition read_papers_to_notify (csv_path : string) : M (list paper) :=
  fun w =>
    match files w !! csv_path with
    | None => (Ok [], w)
    | Some f =>
        let papers := DictReader (open_text f) in
        (list_sort publication_date_key true papers, w)
    end.

(** [for row in rows: emailed_ids.add(row['openalex_id'])] *)
Fixpoint add_ids (rows : list paper) (emailed_ids : gset value)
  : result (gset value) :=
  match rows with
  | [] => Ok emailed_ids
  | row :: rows' =>
      match row !! "openalex_id" with
      | None => Raise (KeyError "openalex_id")
      | Some id => add_ids rows' ({[id]} ∪ emailed_ids)
      end
  end.

Definition read_emailed_papers (csv_path : string) : M (gset value) :=
  fun w =>
    match files w !! csv_path with
    | None => (Ok ∅, w)
    | Some f => (add_ids (DictReader (open_text f)) ∅, w)
    end.

(** The documented shape of the ledger: a single column named
    [openalex_id] (or a file with no row at all). *)
Definition ledger_format (f : table) : Prop :=
  match f with
  | [] => True
  | fieldnames :: _ => fieldnames = ["openalex_id"]
  end.

(** A paper record has an [openalex_id], a string. *)
Definition has_id (x : paper) : Prop :=
  ∃ id, x !! "openalex_id" = Some (PStr id).

(** A paper record has an [openalex_id], a string without carriage return
    (as every string read from a file in text mode is). *)
Definition has_text_id (x : paper) : Prop :=
  ∃ id, x !! "openalex_id" = Some (PStr id) ∧ no_cr id.

(** The id a row of the ledger stands for: its first field. *)
Definition row_id (r : row) : option string := hd_error r.

(** The file is opened for writing and the header written before
    [sorted] runs, so a [TypeError] there leaves the header alone on
    disk. *)
Definition update_emailed_papers (papers : list paper) (csv_path : string)
  : M unit :=
  let* emailed_ids := read_emailed_papers csv_path in
  let* emailed_ids := lift (add_ids papers emailed_ids) in
  fun w =>
    match sorted (elements emailed_ids) with
    | Raise e => (Raise e, set_file csv_path [["openalex_id"]] w)
    | Ok ids =>
        (Ok tt,
         set_file csv_path
           (["openalex_id"] :: map (fun paper_id => [csv_field paper_id]) ids) w)
    end.

(** ** Message formatter *)

(** The line feed of the f-strings. *)
Definition LF : string := String "010"%char EmptyString.

Definition nonempty (s : string) : bool := negb (String.eqb s "").

Definition paper_word (paper_count : nat) : string :=
  if Nat.eqb paper_count 1 then "paper" else "papers".

Definition have_word (paper_count : nat) : string :=
  if Nat.eqb paper_count 1 then "has" else "have".

Definition summary_text (paper_count : nat) : string :=
  "The following *" ++ str_of_nat paper_count ++ " new "
  ++ paper_word paper_count ++ "* " ++ have_word paper_count
  ++ " been added to the <https://economic.github.io/new_unions_papers/|Recent Union Papers> list:".

(** The text of the block of one paper (the body of the [for] loop). *)
Definition paper_text (paper : paper) : string :=
  let title := escape_slack_text (dict_get paper "title" (PStr "")) in
  let authors := escape_slack_text (dict_get paper "authors" (PStr "")) in
  let journal := escape_slack_text (dict_get paper "journal" (PStr "")) in
  let doi := dict_get paper "doi" (PStr "") in
  let publication_date := dict_get paper "publication_date" (PStr "") in
  let paper_text := "*" ++ authors ++ "*" ++ LF ++ "_" ++ title ++ "_" ++ LF in
  let paper_text :=
    if truthy doi && nonempty journal then
      paper_text ++ "📄 <" ++ format_value doi ++ "|" ++ journal ++ ">"
    else if nonempty journal then
      paper_text ++ "📄 " ++ journal
    else paper_text in
  let paper_text :=
    if truthy publication_date then
      if truthy doi || nonempty journal then
        paper_text ++ "  |  📅 " ++ format_value publication_date
      else
        paper_text ++ "📅 " ++ format_value publication_date
    else paper_text in
  paper_text.

Definition format_slack_message (papers : list paper) : M message :=
  fun w =>
    let paper_count := length papers in
    let week_end_date := today w in
    let blocks :=
      [ BHeader (PlainText "📚 New Union Papers Detected" true);
        BSection (Mrkdwn (summary_text paper_count));
        BDivider ] in
    let blocks :=
      (blocks
         ++ map (fun paper => BSection (Mrkdwn (paper_text paper))) papers)%list in
    let blocks :=
      (blocks ++
       [ BDivider;
         BContext
           [Mrkdwn "_Automated notification from the Union Papers tracking system_"] ])%list in
    (Ok (Message ("New union papers for the week ending " ++ week_end_date)
                 blocks), w).

(** ** Notifier *)

(** An exception raised in the [try] body is caught by one of the three
    handlers; one raised inside a handler is not. *)
Definition send_slack_message (webhook_url : string) (message : message)
  : M bool :=
  fun w =>
    let w := log_post webhook_url message w in
    match network w webhook_url message with
    | Responded status body =>
        match decode_utf8 body with
        | Ok response_text =>
            if (status =? 200)%Z && String.eqb response_text "ok"
            then (Ok true, w)
            else (Ok false, w)
        | Raise _ => (Ok false, w)
        end
    | RaisedHTTPError code reason body =>
        match decode_utf8 body with
        | Ok _ => (Ok false, w)
        | Raise e => (Raise e, w)
        end
    | RaisedURLError reason => (Ok false, w)
    | RaisedOther description => (Ok false, w)
    end.

(** ** Orchestrator *)

(** [os.getenv(name)] *)
Definition getenv (name : string) : M value :=
  fun w => (Ok (value_of_option (environ w !! name)), w).

Definition sys_exit {A} (code : Z) : M A := raise (SystemExit code).

Definition is_empty {A} (l : list A) : bool :=
  match l with
  | [] => true
  | _ :: _ => false
  end.

Definition main : M unit :=
  let* papers := read_papers_to_notify "union_papers_to_email.csv" in
  if is_empty papers then sys_exit 0
  else
    let* webhook_url := getenv "SLACK_WEBHOOK_URL" in
    if negb (truthy webhook_url) then sys_exit 1
    else
      let* message := format_slack_message papers in
      let* success :=
        send_slack_message (format_value webhook_url) message in
      if negb success then sys_exit 1
      else
        update_emailed_papers papers "emailed_papers.csv".

(** The exit status of the process: that of [sys.exit], 1 for an exception
    nobody caught, 0 when [main] returns. *)
Definition exit_status (r : result unit) : Z :=
  match r with
  | Ok _ => 0
  | Raise (SystemExit code) => code
  | Raise _ => 1
  end.

(** A world with the given files, webhook and network, on a given day. *)
Definition initial_world (fs : gmap string table) (env : gmap string string)
    (date : string) (net : string → message → outcome) : world :=
  World fs env date net [].

(** ** Auxiliary definitions used in the statements *)

(** The characters that have an entity. *)
Definition special (c : ascii) : bool :=
  Ascii.eqb c "&" || Ascii.eqb c "<" || Ascii.eqb c ">".

(** What follows the count in the summary. *)
Definition summary_tail (paper_count : nat) : string :=
  " new " ++ paper_word paper_count ++ "* " ++ have_word paper_count
  ++ " been added to the <https://economic.github.io/new_unions_papers/|Recent Union Papers> list:".

(** The message [format_slack_message] builds for a list of papers on a
    given day. *)
Definition message_of (papers : list paper) (date : string) : message :=
  Message ("New union papers for the week ending " ++ date)
    ([ BHeader (PlainText "📚 New Union Papers Detected" true);
       BSection (Mrkdwn (summary_text (length papers)));
       BDivider ]
     ++ map (fun paper => BSection (Mrkdwn (paper_text paper))) papers
     ++ [ BDivider;
          BContext
            [Mrkdwn "_Automated notification from the Union Papers tracking system_"] ])%list.

(** The POSTs of one run: at most one, of the message formatted from the
    sorted pending papers, to the configured URL. *)
Definition posts_of_run (w : world) : list (string * message) :=
  match fst (read_papers_to_notify "union_papers_to_email.csv" w) with
  | Ok papers =>
      let webhook_url := value_of_option (environ w !! "SLACK_WEBHOOK_URL") in
      if is_empty papers then []
      else if truthy webhook_url
           then [(format_value webhook_url, message_of papers (today w))]
           else []
  | Raise _ => []
  end.

(** The failures the handlers of [send_slack_message] turn into [False]. *)
Definition handled (o : outcome) : Prop :=
  match o with
  | Responded _ _ => True
  | RaisedHTTPError _ _ body => ∃ text, decode_utf8 body = Ok text
  | RaisedURLError _ => True
  | RaisedOther _ => True
  end.

(** ** Sample data *)

Definition webhook : string := "https://hooks.slack.com/services/T0/B0/X0".

Definition configured : gmap string string :=
  {[ "SLACK_WEBHOOK_URL" := webhook ]}.

(** Four networks: unreachable, answering 200 [ok], answering 500 with a
    text body, answering 502 with a Latin-1 body ([caf\xe9]). *)
Definition no_network (url : string) (m : message) : outcome :=
  RaisedURLError "unreachable".

Definition accepting (url : string) (m : message) : outcome :=
  Responded 200 (list_byte_of_string "ok").

Definition server_error (url : string) (m : message) : outcome :=
  RaisedHTTPError 500 "Internal Server Error"
    (list_byte_of_string "internal error").

Definition latin1_error_page (url : string) (m : message) : outcome :=
  RaisedHTTPError 502 "Bad Gateway"
    [Byte.x63; Byte.x61; Byte.x66; Byte.xe9].

Definition three_dates : table :=
  [ ["openalex_id"; "publication_date"];
    ["W1"; "2024-01-01"]; ["W2"; "2024-03-01"]; ["W3"; ""] ].

Definition three_dates_world : world :=
  initial_world {[ "union_papers_to_email.csv" := three_dates ]} ∅
    "May 01, 2024" no_network.

Definition one_paper : table :=
  [ ["openalex_id"; "title"; "authors"; "journal"; "doi"; "publication_date"];
    ["W100"; "T"; "A"; "J"; "https://doi.org/x"; "2024-05-01"] ].

Definition pending_only : gmap string table :=
  {[ "union_papers_to_email.csv" := one_paper ]}.

Definition pending_and_ledger : gmap string table :=
  <[ "emailed_papers.csv" := [["openalex_id"]; ["W100"]; ["W7"]] ]> pending_only.

Definition failing_world : world :=
  initial_world pending_only configured "May 01, 2024" server_error.

Definition latin1_world : world :=
  initial_world pending_only configured "May 01, 2024" latin1_error_page.

Definition paper_with_id (id : string) : paper :=
  <["openalex_id" := PStr id]> ∅.

Definition no_ledger_world : world :=
  initial_world ∅ ∅ "May 01, 2024" no_network.

Definition one_id_ledger_world : world :=
  initial_world {[ "emailed_papers.csv" := [["openalex_id"]; ["W1"]] ]} ∅
    "May 01, 2024" no_network.

Definition doi_without_journal : paper :=
  list_to_map
    [ ("openalex_id", PStr "W100"); ("title", PStr "T"); ("authors", PStr "A");
      ("journal", PStr ""); ("doi", PStr "https://doi.org/x");
      ("publication_date", PStr "2024-05-01") ].

(** ** Further sample data *)

(** Text without any of the three characters. *)
Definition plain (s : string) : Prop :=
  contains "&" s = false ∧ contains "<" s = false ∧ contains ">" s = false.

Definition sorted_dates : table :=
  [ ["openalex_id"; "publication_date"];
    ["W2"; "2024-03-01"]; ["W4"; "2024-03-01"]; ["W1"; "2024-01-01"]; ["W3"; ""] ].

Definition sorted_dates_world : world :=
  initial_world {[ "union_papers_to_email.csv" := sorted_dates ]} ∅
    "May 01, 2024" no_network.

Definition undated : table :=
  [ ["openalex_id"; "title"]; ["W2"; "B"]; []; ["W1"; "A"] ].

Definition undated_world : world :=
  initial_world {[ "union_papers_to_email.csv" := undated ]} ∅
    "May 01, 2024" no_network.

Definition short_row : table :=
  [ ["openalex_id"; "publication_date"]; ["W1"; "2024-01-01"]; ["W2"] ].

Definition short_row_world : world :=
  initial_world {[ "union_papers_to_email.csv" := short_row ]} ∅
    "May 01, 2024" no_network.

Definition wrong_header_world : world :=
  initial_world {[ "emailed_papers.csv" := [["id"]; ["W1"]] ]} ∅
    "May 01, 2024" no_network.

Definition paper_without_id : paper := <["openalex_id" := PNone]> ∅.

Definition header_only_world : world :=
  initial_world
    {[ "union_papers_to_email.csv" := [["openalex_id"; "publication_date"]; []] ]}
    configured "May 01, 2024" accepting.

Definition empty_webhook_world : world :=
  initial_world pending_only {[ "SLACK_WEBHOOK_URL" := "" ]} "May 01, 2024"
    accepting.

Definition accepting_world : world :=
  initial_world pending_only configured "May 01, 2024" accepting.

Definition mention_paper : paper :=
  list_to_map
    [ ("openalex_id", PStr "W1"); ("title", PStr "<!channel> wages & unions");
      ("authors", PStr "A <b@c.org>"); ("journal", PStr "J<K>");
      ("doi", PStr ""); ("publication_date", PStr "2024-05-01") ].

Definition journal_only_paper : paper :=
  list_to_map
    [ ("openalex_id", PStr "W1"); ("title", PStr "T"); ("authors", PStr "A");
      ("journal", PStr "J"); ("doi", PStr "");
      ("publication_date", PStr "2024-05-01") ].

Definition date_only_paper : paper :=
  list_to_map
    [ ("openalex_id", PStr "W1"); ("title", PStr "T"); ("authors", PStr "A");
      ("journal", PStr ""); ("doi", PStr "");
      ("publication_date", PStr "2024-05-01") ].

Definition cr_paper : paper := paper_with_id ("W1" ++ CR ++ "b").

(** A ledger with a carriage return inside an id. *)
Definition cr_ledger_world : world :=
  initial_world
    {[ "emailed_papers.csv" := [["openalex_id"]; ["W1" ++ CR ++ "b"]; ["W0"]] ]} ∅
    "May 01, 2024" no_network.

(** The three records of [three_dates] with the third row cut short: its
    date is missing, not empty. *)
Definition three_dates_short : table :=
  [ ["openalex_id"; "publication_date"];
    ["W1"; "2024-01-01"]; ["W2"; "2024-03-01"]; ["W3"] ].

Definition three_dates_short_world : world :=
  initial_world {[ "union_papers_to_email.csv" := three_dates_short ]} ∅
    "May 01, 2024" no_network.

(** A pending file whose second row stops before the id, beside a ledger
    that holds two ids. *)
Definition ragged_pending : table :=
  [ ["title"; "openalex_id"]; ["T1"; "W1"]; ["T2"] ].

Definition ragged_world : world :=
  initial_world
    (<[ "emailed_papers.csv" := [["openalex_id"]; ["W0"]; ["W5"]] ]>
       {[ "union_papers_to_email.csv" := ragged_pending ]})
    configured "May 01, 2024" accepting.

(** * Properties *)

(** ** Strings and escaping *)

Lemma append_nil (b : string) : "" ++ b = b.
Proof. reflexivity. Qed.

Lemma append_cons (c : ascii) (a b : string) :
  String c a ++ b = String c (a ++ b).
Proof. reflexivity. Qed.

Ltac push_append := rewrite ?append_cons, ?append_nil.

Lemma append_assoc (a b c : string) : (a ++ b) ++ c = a ++ (b ++ c).
Proof.
  induction a as [|x a IH]; push_append; [reflexivity | now rewrite IH].
Qed.

Lemma startswith_app (p t : string) : startswith p (p ++ t) = true.
Proof.
  induction p as [|a p IH]; simpl; [reflexivity |].
  now rewrite Ascii.eqb_refl, IH.
Qed.

Lemma contains_here (p t : string) : startswith p t = true → contains p t = true.
Proof. intros H. destruct t; simpl in *; rewrite H; reflexivity. Qed.

Lemma contains_cons (p : string) (c : ascii) (t : string) :
  contains p t = true → contains p (String c t) = true.
Proof. intros H. simpl. rewrite H. apply orb_true_r. Qed.

Lemma contains_app_r (p a t : string) :
  contains p t = true → contains p (a ++ t) = true.
Proof.
  intros H. induction a as [|x a IH]; simpl; [exact H |].
  change (startswith p (String x (a ++ t)) || contains p (a ++ t) = true).
  rewrite IH. apply orb_true_r.
Qed.

Lemma contains_intro (p a b : string) : contains p (a ++ p ++ b) = true.
Proof. apply contains_app_r, contains_here, startswith_app. Qed.

Lemma startswith_elim (p t : string) :
  startswith p t = true → ∃ b, t = p ++ b.
Proof.
  revert t. induction p as [|a p IH]; intros t H.
  - exists t. reflexivity.
  - destruct t as [|c t]; simpl in H; [discriminate |].
    apply andb_true_iff in H as [Hc Hp].
    apply Ascii.eqb_eq in Hc. subst c.
    destruct (IH _ Hp) as [b ->]. exists b. reflexivity.
Qed.

Lemma contains_elim (p t : string) :
  contains p t = true → ∃ a b, t = a ++ p ++ b.
Proof.
  induction t as [|c t IH]; simpl; intros H.
  - rewrite orb_false_r in H. destruct (startswith_elim _ _ H) as [b Hb].
    exists "", b. exact Hb.
  - apply orb_true_iff in H as [H | H].
    + destruct (startswith_elim _ _ H) as [b Hb]. exists "", b. exact Hb.
    + destruct (IH H) as (a & b & ->). exists (String c a), b. reflexivity.
Qed.

Lemma replace_app (old : ascii) (new a b : string) :
  replace old new (a ++ b) = replace old new a ++ replace old new b.
Proof.
  induction a as [|c a IH]; simpl; [reflexivity |].
  destruct (Ascii.eqb c old); rewrite IH; [now rewrite append_assoc | reflexivity].
Qed.

Lemma escape_pass_app (a b : string) :
  escape_pass (a ++ b) = escape_pass a ++ escape_pass b.
Proof.
  induction a as [|c a IH]; simpl; [reflexivity |].
  now rewrite IH, append_assoc.
Qed.


Lemma entity_plain (c : ascii) :
  special c = false → entity c = String c EmptyString.
Proof.
  unfold special, entity. intros H.
  apply orb_false_iff in H as [H H3]. apply orb_false_iff in H as [H1 H2].
  now rewrite H1, H2, H3.
Qed.

Lemma entity_cases (c : ascii) :
  (c = "&"%char ∧ entity c = "&amp;") ∨ (c = "<"%char ∧ entity c = "&lt;")
  ∨ (c = ">"%char ∧ entity c = "&gt;")
  ∨ (special c = false ∧ entity c = String c EmptyString).
Proof.
  unfold entity, special.
  destruct (Ascii.eqb_spec c "&"); [left; auto |].
  destruct (Ascii.eqb_spec c "<"); [right; left; auto |].
  destruct (Ascii.eqb_spec c ">"); [right; right; left; auto |].
  right; right; right; auto.
Qed.

Lemma three_replacements_one_pass (s : string) :
  replace ">" "&gt;" (replace "<" "&lt;" (replace "&" "&amp;" s)) = escape_pass s.
Proof.
  induction s as [|c s IH]; [reflexivity |].
  cbn [replace escape_pass].
  destruct (entity_cases c) as [[-> ->] | [[-> ->] | [[-> ->] | [Hc ->]]]].
  - cbn [Ascii.eqb Bool.eqb]. rewrite !replace_app. cbn. now rewrite IH.
  - cbn. now rewrite replace_app, IH.
  - cbn. now rewrite IH.
  - unfold special in Hc.
    apply orb_false_iff in Hc as [Hc H3]. apply orb_false_iff in Hc as [H1 H2].
    rewrite H1. cbn [replace]. rewrite H2. cbn [replace]. rewrite H3.
    now rewrite IH.
Qed.

Lemma escape_slack_text_one_pass (text : string) :
  escape_slack_text (PStr text) = escape_pass text.
Proof.
  unfold escape_slack_text, truthy, str_of. rewrite negb_involutive.
  destruct (String.eqb_spec text "") as [-> | _]; [reflexivity |].
  apply three_replacements_one_pass.
Qed.

Lemma contains_entity (c : ascii) (s : string) :
  contains (String c EmptyString) s = true →
  contains (entity c) (escape_pass s) = true.
Proof.
  induction s as [|x s IH]; [discriminate |].
  cbn [contains startswith escape_pass]. rewrite andb_true_r.
  intros H. apply orb_true_iff in H as [H | H].
  - apply Ascii.eqb_eq in H. subst x.
    apply contains_here, startswith_app.
  - apply contains_app_r, IH, H.
Qed.

(** A prefix of the escaped text that starts with a plain character comes
    from that character. *)
Lemma startswith_escape_pass_plain (a : ascii) (q s : string) :
  a ≠ "&"%char →
  startswith (String a q) (escape_pass s) = true →
  ∃ s', s = String a s' ∧ startswith q (escape_pass s') = true.
Proof.
  intros Ha H. destruct s as [|c s]; [discriminate |].
  cbn [escape_pass] in H.
  destruct (entity_cases c) as [[-> E] | [[-> E] | [[-> E] | [Hc E]]]];
    rewrite E in H; cbn [append startswith] in H;
    apply andb_true_iff in H as [H1 H2]; apply Ascii.eqb_eq in H1.
  1-3: congruence.
  subst c. exists s. split; [reflexivity | exact H2].
Qed.

Lemma contains_unfold (p : string) (c : ascii) (t : string) :
  contains p (String c t) = startswith p (String c t) || contains p t.
Proof. reflexivity. Qed.

Lemma startswith_same (a : ascii) (p t : string) :
  startswith (String a p) (String a t) = startswith p t.
Proof. cbn [startswith]. now rewrite Ascii.eqb_refl. Qed.

Lemma startswith_differ (a b : ascii) (p t : string) :
  Ascii.eqb a b = false → startswith (String a p) (String b t) = false.
Proof. intros H. cbn [startswith]. now rewrite H. Qed.

Lemma contains_skip (a b : ascii) (p t : string) :
  Ascii.eqb a b = false →
  contains (String a p) (String b t) = contains (String a p) t.
Proof. intros H. now rewrite contains_unfold, startswith_differ. Qed.

Lemma double_escape_step (c : ascii) (s : string) :
  contains "&amp;amp;" (entity c ++ escape_pass s) = true →
  (c = "&"%char ∧ startswith "amp;" (escape_pass s) = true)
  ∨ contains "&amp;amp;" (escape_pass s) = true.
Proof.
  destruct (entity_cases c) as [[-> E] | [[-> E] | [[-> E] | [Hc E]]]];
    rewrite E; rewrite !append_cons, append_nil; intros H.
  - rewrite contains_unfold, startswith_same in H.
    rewrite !contains_skip in H by reflexivity.
    rewrite !startswith_same in H.
    apply orb_true_iff in H as [H | H]; [left | right]; auto.
  - rewrite contains_unfold, startswith_same in H.
    rewrite startswith_differ in H by reflexivity.
    rewrite !contains_skip in H by reflexivity. right. exact H.
  - rewrite contains_unfold, startswith_same in H.
    rewrite startswith_differ in H by reflexivity.
    rewrite !contains_skip in H by reflexivity. right. exact H.
  - right. rewrite contains_skip in H; [exact H |].
    unfold special in Hc.
    apply orb_false_iff in Hc as [Hc _]. apply orb_false_iff in Hc as [Hc _].
    now rewrite Ascii.eqb_sym.
Qed.

Lemma double_escape_origin (s : string) :
  contains "&amp;amp;" (escape_pass s) = true → contains "&amp;" s = true.
Proof.
  induction s as [|c s IH]; [discriminate |].
  cbn [escape_pass]. intros H.
  apply double_escape_step in H as [[-> H] | H].
  - apply startswith_escape_pass_plain in H as (s1 & -> & H); [| discriminate].
    apply startswith_escape_pass_plain in H as (s2 & -> & H); [| discriminate].
    apply startswith_escape_pass_plain in H as (s3 & -> & H); [| discriminate].
    apply startswith_escape_pass_plain in H as (s4 & -> & H); [| discriminate].
    apply contains_here. reflexivity.
  - apply contains_cons, IH, H.
Qed.

Lemma double_escape_from_entity (s : string) :
  contains "&amp;" s = true → contains "&amp;amp;" (escape_pass s) = true.
Proof.
  intros H. apply contains_elim in H as (a & b & ->).
  rewrite !escape_pass_app. apply contains_intro.
Qed.

(** C2: if the text contains [&], [<] or [>], the escaped text contains
    [&amp;], [&lt;] or [&gt;]; the three replacements in the order of the
    source amount to one pass that replaces each of the three characters
    by its entity, so no inserted entity is escaped again; and the
    escaped text contains [&amp;amp;] exactly when the text itself
    contains [&amp;]. *)
Theorem escape_slack_text_entities (text : string) :
  (contains "&" text = true →
   contains "&amp;" (escape_slack_text (PStr text)) = true)
  ∧ (contains "<" text = true →
     contains "&lt;" (escape_slack_text (PStr text)) = true)
  ∧ (contains ">" text = true →
     contains "&gt;" (escape_slack_text (PStr text)) = true)
  ∧ escape_slack_text (PStr text) = escape_pass text
  ∧ (contains "&amp;amp;" (escape_slack_text (PStr text)) = true
     ↔ contains "&amp;" text = true).
Proof.
  rewrite escape_slack_text_one_pass.
  split; [apply (contains_entity "&") |].
  split; [apply (contains_entity "<") |].
  split; [apply (contains_entity ">") |].
  split; [reflexivity |].
  split; [apply double_escape_origin | apply double_escape_from_entity].
Qed.

(** The claim as first stated fails on a text that already holds an
    entity: [&amp;] contains [&] and is escaped to [&amp;amp;]. *)
Lemma escape_slack_text_double_escape :
  ¬ (∀ text : string,
       contains "&" text = true →
       contains "&amp;amp;" (escape_slack_text (PStr text)) = false).
Proof.
  intros H. specialize (H "&amp;" eq_refl). vm_compute in H. discriminate H.
Qed.

(** With the ampersand replaced last the entities of [<] and [>] would be
    escaped again. *)
Example escape_ampersand_last_double_escapes :
  escape_ampersand_last "<" = "&amp;lt;"
  ∧ escape_slack_text (PStr "<") = "&lt;".
Proof. split; reflexivity. Qed.

(** ** Order on strings *)

Lemma ltb_negb_leb (x y : string) : String.ltb y x = negb (String.leb x y).
Proof.
  unfold String.ltb, String.leb. rewrite (String.compare_antisym x y).
  destruct (String.compare y x); reflexivity.
Qed.

Lemma ltb_false_le (x y : string) : String.ltb y x = false ↔ String.le x y.
Proof.
  unfold String.le. rewrite ltb_negb_leb.
  destruct (String.leb x y); simpl; intuition discriminate.
Qed.

Lemma ltb_true_le (x y : string) : String.ltb x y = true → String.le x y.
Proof.
  unfold String.le, String.ltb, String.leb.
  destruct (String.compare x y); simpl; intuition discriminate.
Qed.

Lemma ltb_irrefl (x : string) : String.ltb x x = false.
Proof. apply ltb_false_le. reflexivity. Qed.

Lemma ltb_true_ne (x y : string) : String.ltb x y = true → x ≠ y.
Proof. intros H ->. rewrite ltb_irrefl in H. discriminate. Qed.

Lemma le_empty (x : string) : String.le "" x.
Proof. destruct x; exact I. Qed.

Lemma le_empty_inv (x : string) : String.le x "" → x = "".
Proof. intros H. apply (anti_symm String.le); [exact H | apply le_empty]. Qed.

(** ** The stable sort *)

Section SortFacts.
Context {A : Type} (key : A → value).

Let skey (x : A) : string := str_of (key x).
Let keyed (x : A) : Prop := is_str (key x) = true.
Let ascending (x y : A) : Prop := String.le (skey x) (skey y).
Let same_key (d : string) (x : A) : bool := String.eqb (skey x) d.

Lemma lt_value_keyed (x y : A) :
  keyed x → keyed y →
  lt_value (key y) (key x) = Ok (String.ltb (skey y) (skey x)).
Proof.
  unfold keyed, skey. destruct (key x), (key y); simpl; congruence.
Qed.

Lemma insert_sorted_spec (x : A) (l : list A) :
  keyed x → Forall keyed l → StronglySorted ascending l →
  ∃ l', insert_sorted key x l = Ok l'
        ∧ l' ≡ₚ x :: l
        ∧ StronglySorted ascending l'
        ∧ ∀ d, List.filter (same_key d) l' = List.filter (same_key d) (x :: l).
Proof.
  intros Hx Hl Hs. induction l as [|y l IH].
  - exists [x]. repeat split; auto. repeat constructor.
  - apply Forall_cons in Hl as [Hy Hl].
    apply StronglySorted_inv in Hs as [Hs Hyl].
    cbn [insert_sorted]. rewrite (lt_value_keyed x y Hx Hy). cbn [rbind].
    destruct (String.ltb (skey y) (skey x)) eqn:Hlt.
    + destruct (IH Hl Hs) as (l' & -> & Hp & Hs' & Hf). cbn [rbind].
      exists (y :: l'). split; [reflexivity |]. split; [| split].
      * rewrite Hp. apply perm_swap.
      * constructor; [exact Hs' |].
        rewrite Hp. constructor; [apply ltb_true_le, Hlt | exact Hyl].
      * intros d. cbn [List.filter]. rewrite Hf. cbn [List.filter].
        unfold same_key.
        destruct (String.eqb_spec (skey y) d) as [Ey|]; [| reflexivity].
        destruct (String.eqb_spec (skey x) d) as [Ex|]; [| reflexivity].
        apply ltb_true_ne in Hlt. congruence.
    + exists (x :: y :: l). repeat split; auto.
      apply ltb_false_le in Hlt.
      constructor; [constructor; assumption |].
      constructor; [exact Hlt |].
      eapply Forall_impl; [exact Hyl |].
      intros z Hz. unfold ascending in *. etrans; eassumption.
Qed.

Lemma sort_stable_spec (l : list A) :
  Forall keyed l →
  ∃ l', sort_stable key l = Ok l'
        ∧ l' ≡ₚ l
        ∧ StronglySorted ascending l'
        ∧ ∀ d, List.filter (same_key d) l' = List.filter (same_key d) l.
Proof.
  induction l as [|x l IH]; intros Hl.
  - exists []. repeat split; auto. constructor.
  - apply Forall_cons in Hl as [Hx Hl].
    destruct (IH Hl) as (s & Hs & Hp & Hsorted & Hf).
    cbn [sort_stable]. rewrite Hs. cbn [rbind].
    assert (Hks : Forall keyed s) by (rewrite Hp; exact Hl).
    destruct (insert_sorted_spec x s Hx Hks Hsorted) as (l' & -> & Hp' & Hs' & Hf').
    exists l'. split; [reflexivity |]. split; [| split]; auto.
    + rewrite Hp', Hp. reflexivity.
    + intros d. rewrite Hf'. cbn [List.filter]. now rewrite Hf.
Qed.
End SortFacts.

Lemma StronglySorted_rev {A} (R : relation A) (l : list A) :
  StronglySorted R l → StronglySorted (flip R) (rev l).
Proof.
  induction 1 as [|x l Hs IH Hx]; [constructor |].
  cbn [rev]. apply StronglySorted_app. split; [| split].
  - intros a b Ha Hb. apply list_elem_of_singleton in Hb. subst b.
    apply list_elem_of_In, in_rev, list_elem_of_In in Ha.
    rewrite Forall_forall in Hx. apply Hx, Ha.
  - exact IH.
  - repeat constructor.
Qed.

Section ListSortFacts.
Context {A : Type} (key : A → value).

Let skey (x : A) : string := str_of (key x).

(** [l.sort(key=key, reverse=True)] on keys that are all strings: the
    result is the list in descending key order, equal keys in their
    original order. *)
Lemma list_sort_reverse_spec (l : list A) :
  Forall (fun x => is_str (key x) = true) l →
  ∃ l', list_sort key true l = Ok l'
        ∧ l' ≡ₚ l
        ∧ StronglySorted (fun x y => String.le (skey y) (skey x)) l'
        ∧ ∀ d, List.filter (fun x => String.eqb (skey x) d) l'
               = List.filter (fun x => String.eqb (skey x) d) l.
Proof.
  intros Hl.
  assert (Hr : Forall (fun x => is_str (key x) = true) (rev l)).
  { rewrite <- (Permutation_rev l). exact Hl. }
  destruct (sort_stable_spec key (rev l) Hr) as (s & Hs & Hp & Hsorted & Hf).
  unfold list_sort. rewrite Hs. cbn [rbind].
  exists (rev s). split; [reflexivity |]. split; [| split].
  - rewrite <- (Permutation_rev s), Hp, <- (Permutation_rev l). reflexivity.
  - apply StronglySorted_rev in Hsorted. exact Hsorted.
  - intros d. rewrite filter_rev, Hf, filter_rev. apply rev_involutive.
Qed.

(** [sorted(l)] on strings. *)
Lemma list_sort_forward_spec (l : list A) :
  Forall (fun x => is_str (key x) = true) l →
  ∃ l', list_sort key false l = Ok l'
        ∧ l' ≡ₚ l
        ∧ StronglySorted (fun x y => String.le (skey x) (skey y)) l'.
Proof.
  intros Hl.
  destruct (sort_stable_spec key l Hl) as (s & Hs & Hp & Hsorted & _).
  exists s. auto.
Qed.

(** In a descending list the empty keys come last. *)
Lemma descending_empty_last (l : list A) :
  StronglySorted (fun x y => String.le (skey y) (skey x)) l →
  ∃ l1 l2, l = (l1 ++ l2)%list
           ∧ Forall (fun x => skey x ≠ "") l1
           ∧ Forall (fun x => skey x = "") l2.
Proof.
  induction 1 as [|x l Hs IH Hx]; [exists [], []; auto |].
  destruct (String.eqb_spec (skey x) "") as [E | E].
  - exists [], (x :: l). split; [reflexivity |]. split; [constructor |].
    constructor; [exact E |].
    eapply Forall_impl; [exact Hx |]. intros y Hy. cbn beta in Hy.
    rewrite E in Hy. apply le_empty_inv, Hy.
  - destruct IH as (l1 & l2 & -> & H1 & H2).
    exists (x :: l1), l2. split; [reflexivity |]. split; [| exact H2].
    constructor; assumption.
Qed.
End ListSortFacts.

(** ** Text mode *)

Lemma contains_cr_cons (c : ascii) (s : string) :
  contains CR (String c s) = Ascii.eqb "013" c || contains CR s.
Proof.
  unfold CR. rewrite contains_unfold. cbn [startswith].
  now rewrite andb_true_r.
Qed.

Lemma universal_newlines_cons (c : ascii) (s : string) :
  Ascii.eqb c "013" = false →
  universal_newlines (String c s) = String c (universal_newlines s).
Proof. intros H. cbn [universal_newlines]. now rewrite H. Qed.

(** What text mode hands over holds no carriage return. *)
Lemma universal_newlines_no_cr (s : string) : no_cr (universal_newlines s).
Proof.
  unfold no_cr.
  assert (G : contains CR (universal_newlines s) = false
              ∧ ∀ c, contains CR (universal_newlines (String c s)) = false).
  { induction s as [|a s [IH1 IH2]].
    - split; [reflexivity |]. intros c. cbn [universal_newlines].
      destruct (Ascii.eqb_spec c "013") as [-> | Hc]; [reflexivity |].
      rewrite contains_cr_cons, Ascii.eqb_sym.
      apply Ascii.eqb_neq in Hc. now rewrite Hc.
    - split; [apply IH2 |]. intros c.
      destruct (Ascii.eqb_spec c "013") as [-> | Hc].
      + cbn [universal_newlines Ascii.eqb Bool.eqb].
        rewrite contains_cr_cons. cbn [Ascii.eqb Bool.eqb orb].
        destruct (Ascii.eqb a "010"); [exact IH1 | apply IH2].
      + apply Ascii.eqb_neq in Hc. rewrite universal_newlines_cons by exact Hc.
        rewrite contains_cr_cons, Ascii.eqb_sym, Hc. apply IH2. }
  apply G.
Qed.

(** A text without carriage return goes through text mode unchanged. *)
Lemma universal_newlines_id (s : string) :
  no_cr s → universal_newlines s = s.
Proof.
  unfold no_cr. induction s as [|c s IH]; [reflexivity |].
  rewrite contains_cr_cons. intros H.
  apply orb_false_iff in H as [Hc Hs]. rewrite Ascii.eqb_sym in Hc.
  rewrite universal_newlines_cons by exact Hc. now rewrite IH.
Qed.

Lemma open_text_cons (r : row) (f : table) :
  open_text (r :: f) = map universal_newlines r :: open_text f.
Proof. reflexivity. Qed.

Lemma open_text_ledger (body : list row) :
  open_text (["openalex_id"] :: body) = ["openalex_id"] :: open_text body.
Proof. reflexivity. Qed.

(** The records read from a file: every string in them went through text
    mode. *)
Lemma zip_row_no_cr (fieldnames : list string) (r : row) (d : paper) :
  (∀ k s, d !! k = Some (PStr s) → no_cr s) →
  ∀ k s, zip_row fieldnames (map universal_newlines r) d !! k = Some (PStr s) →
         no_cr s.
Proof.
  revert r d. induction fieldnames as [|k' ks IH]; intros r d Hd k s;
    [destruct r; apply Hd |].
  destruct r as [|v vs]; cbn [map zip_row].
  - apply (IH []). intros k0 s0.
    destruct (decide (k' = k0)) as [-> | Hne];
      [rewrite lookup_insert_eq; discriminate |
       rewrite lookup_insert_ne by exact Hne; apply Hd].
  - apply (IH vs). intros k0 s0.
    destruct (decide (k' = k0)) as [-> | Hne].
    + rewrite lookup_insert_eq. intros [= <-]. apply universal_newlines_no_cr.
    + rewrite lookup_insert_ne by exact Hne. apply Hd.
Qed.

Lemma DictReader_no_cr (f : table) :
  Forall (fun x => ∀ k s, x !! k = Some (PStr s) → no_cr s)
    (DictReader (open_text f)).
Proof.
  destruct f as [|fieldnames rows]; [constructor |].
  rewrite open_text_cons. cbn [DictReader]. apply Forall_forall. intros x Hx.
  apply list_elem_of_fmap in Hx as (r & -> & Hr).
  apply list_elem_of_In, filter_In in Hr as [Hr _].
  apply in_map_iff in Hr as (r0 & <- & _).
  apply zip_row_no_cr. intros k s. rewrite lookup_empty. discriminate.
Qed.

(** ** The pending papers *)

Lemma date_of_key (x : paper) : str_of (publication_date_key x) = date_of x.
Proof.
  unfold publication_date_key, dict_get, date_of.
  destruct (x !! "publication_date") as [[| d] |]; reflexivity.
Qed.

Lemma date_is_str (x : paper) :
  x !! "publication_date" ≠ Some PNone →
  is_str (publication_date_key x) = true.
Proof.
  unfold publication_date_key, dict_get.
  destruct (x !! "publication_date") as [[| d] |]; [congruence | reflexivity..].
Qed.

(** The sort of [read_papers_to_notify] when no date is [None], in terms
    of the dates of the records. *)
Lemma sort_by_date (l : list paper) :
  Forall (fun x => x !! "publication_date" ≠ Some PNone) l →
  ∃ papers,
    list_sort publication_date_key true l = Ok papers
    ∧ papers ≡ₚ l
    ∧ StronglySorted (fun x y => String.le (date_of y) (date_of x)) papers
    ∧ (∀ d, List.filter (fun x => String.eqb (date_of x) d) papers
            = List.filter (fun x => String.eqb (date_of x) d) l)
    ∧ ∃ dated undated,
        papers = (dated ++ undated)%list
        ∧ Forall (fun x => date_of x ≠ "") dated
        ∧ Forall (fun x => date_of x = "") undated.
Proof.
  intros Hl.
  assert (Hk : Forall (fun x => is_str (publication_date_key x) = true) l).
  { eapply Forall_impl; [exact Hl |]. apply date_is_str. }
  destruct (list_sort_reverse_spec publication_date_key l Hk)
    as (papers & Hsort & Hp & Hs & Hst).
  destruct (descending_empty_last publication_date_key papers Hs)
    as (dated & undated & E & Hd & Hu).
  exists papers. split; [exact Hsort |]. split; [exact Hp |].
  split; [| split].
  - clear -Hs. induction Hs as [|x l Hs IH Hx]; constructor; [exact IH |].
    eapply Forall_impl; [exact Hx |]. intros y. cbn beta.
    now rewrite !date_of_key.
  - intros d.
    assert (E' : ∀ l' : list paper,
              List.filter (fun x => String.eqb (date_of x) d) l'
              = List.filter
                  (fun x => String.eqb (str_of (publication_date_key x)) d) l').
    { intros l'. apply List.filter_ext. intros x. now rewrite date_of_key. }
    rewrite !E'. apply Hst.
  - exists dated, undated. split; [exact E |]. split.
    + eapply Forall_impl; [exact Hd |]. intros x. cbn beta.
      now rewrite date_of_key.
    + eapply Forall_impl; [exact Hu |]. intros x. cbn beta.
      now rewrite date_of_key.
Qed.

(** C5: the three records of the claim with the date of the third missing
    instead of empty.  [csv.DictReader] gives that record the date [None],
    and the sort raises [TypeError] instead of putting it last. *)
Theorem read_papers_to_notify_missing_date :
  map (fun x => x !! "publication_date") (DictReader (open_text three_dates_short))
  = [Some (PStr "2024-01-01"); Some (PStr "2024-03-01"); Some PNone]
  ∧ read_papers_to_notify "union_papers_to_email.csv" three_dates_short_world
    = (Raise TypeError, three_dates_short_world).
Proof. split; vm_compute; reflexivity. Qed.

(** With the third date empty the same three records come out as the
    claim says. *)
Example read_papers_to_notify_three_dates :
  match fst (read_papers_to_notify "union_papers_to_email.csv" three_dates_world) with
  | Ok papers => map date_of papers
  | Raise _ => []
  end = ["2024-03-01"; "2024-01-01"; ""].
Proof. vm_compute. reflexivity. Qed.

(** ** Sorting keys that are not all strings *)

Section SortRaises.
Context {A : Type} (key : A → value).

Lemma lt_value_raises (a b : value) (e : exn) :
  lt_value a b = Raise e → e = TypeError.
Proof. destruct a, b; cbn; congruence. Qed.

Lemma insert_sorted_outcome (x : A) (l : list A) :
  match insert_sorted key x l with
  | Ok l' => length l' = S (length l)
  | Raise e => e = TypeError
  end.
Proof.
  induction l as [|y l IH]; [reflexivity |]. cbn [insert_sorted].
  destruct (lt_value (key y) (key x)) as [[|] | e] eqn:Hlt; cbn [rbind].
  - destruct (insert_sorted key x l); cbn [rbind length] in *; congruence.
  - reflexivity.
  - eapply lt_value_raises, Hlt.
Qed.

Lemma sort_stable_outcome (l : list A) :
  match sort_stable key l with
  | Ok l' => length l' = length l
  | Raise e => e = TypeError
  end.
Proof.
  induction l as [|x l IH]; [reflexivity |]. cbn [sort_stable].
  destruct (sort_stable key l) as [s | e]; cbn [rbind]; [| exact IH].
  pose proof (insert_sorted_outcome x s) as H.
  destruct (insert_sorted key x s); cbn [length]; congruence.
Qed.

(** Two or more records, one of them with the key [None]: the first
    comparison that meets it raises. *)
Lemma sort_stable_none (l : list A) :
  (2 ≤ length l)%nat → Exists (fun x => key x = PNone) l →
  sort_stable key l = Raise TypeError.
Proof.
  induction l as [|x l IH]; cbn [length]; [lia |]. intros Hlen Hnone.
  cbn [sort_stable].
  pose proof (sort_stable_outcome l) as Hout.
  destruct (sort_stable key l) as [s | e] eqn:Hs; cbn [rbind];
    [| congruence].
  destruct s as [|y s]; cbn [length] in Hout; [lia |].
  cbn [insert_sorted].
  apply Exists_cons in Hnone as [Hx | Hl].
  - rewrite Hx. destruct (key y); reflexivity.
  - destruct l as [|z l]; [now apply Exists_nil in Hl |].
    destruct l as [|z' l].
    + apply Exists_cons in Hl as [Hz | Hl]; [| now apply Exists_nil in Hl].
      cbv [sort_stable rbind insert_sorted] in Hs.
      inversion Hs; subst. rewrite Hz. reflexivity.
    + assert (E : Ok (y :: s) = Raise TypeError)
        by (apply IH; [cbn [length]; lia | exact Hl]).
      discriminate E.
Qed.

Lemma list_sort_reverse_none (l : list A) :
  (2 ≤ length l)%nat → Exists (fun x => key x = PNone) l →
  list_sort key true l = Raise TypeError.
Proof.
  intros Hlen Hnone. unfold list_sort.
  rewrite sort_stable_none; [reflexivity | now rewrite length_rev |].
  apply Exists_exists in Hnone as (x & Hx & Hk).
  apply Exists_exists. exists x. split; [| exact Hk].
  apply list_elem_of_In, in_rev. rewrite rev_involutive.
  apply list_elem_of_In, Hx.
Qed.
End SortRaises.

(** A short row has no [publication_date]: with another row beside it,
    [read_papers_to_notify] raises [TypeError]. *)
Lemma read_papers_to_notify_none_date (w : world) (csv_path : string)
    (f : table) :
  files w !! csv_path = Some f →
  (2 ≤ length (DictReader (open_text f)))%nat →
  Exists (fun x => publication_date_key x = PNone) (DictReader (open_text f)) →
  read_papers_to_notify csv_path w = (Raise TypeError, w).
Proof.
  intros Hf Hlen Hnone. unfold read_papers_to_notify. rewrite Hf.
  now rewrite list_sort_reverse_none.
Qed.

(** ** The ledger *)

Lemma le_ne_ltb (x y : string) : String.le x y → x ≠ y → String.ltb x y = true.
Proof.
  intros Hle Hne. destruct (String.ltb x y) eqn:E; [reflexivity |].
  apply ltb_false_le in E. destruct Hne.
  apply (anti_symm String.le); assumption.
Qed.

Lemma add_ids_spec (rows : list paper) (s : gset value) :
  Forall (fun r => is_Some (r !! "openalex_id")) rows →
  ∃ s', add_ids rows s = Ok s'
        ∧ ∀ v, v ∈ s' ↔ v ∈ s ∨ ∃ r, r ∈ rows ∧ r !! "openalex_id" = Some v.
Proof.
  revert s. induction rows as [|r rows IH]; intros s Hrows.
  - exists s. split; [reflexivity |]. intros v. split; [auto |].
    intros [H | (r & Hr & _)]; [exact H |]. now apply elem_of_nil in Hr.
  - apply Forall_cons in Hrows as [[id Hid] Hrows].
    cbn [add_ids]. rewrite Hid.
    destruct (IH ({[id]} ∪ s) Hrows) as (s' & -> & Hs').
    exists s'. split; [reflexivity |]. intros v. rewrite Hs'.
    rewrite elem_of_union, elem_of_singleton. split.
    + intros [[-> | H] | (r' & Hr' & Hv)]; auto.
      * right. exists r. split; [left | exact Hid].
      * right. exists r'. split; [right; exact Hr' | exact Hv].
    + intros [H | (r' & Hr' & Hv)]; auto.
      apply elem_of_cons in Hr' as [-> | Hr'].
      * left. left. congruence.
      * right. exists r'. auto.
Qed.

(** The rows [csv.DictReader] yields for a single-column ledger. *)
Lemma DictReader_ledger (body : list row) :
  Forall (fun x => ∃ v, x !! "openalex_id" = Some (PStr v)
                        ∧ ∃ r, r ∈ body ∧ hd_error r = Some v)
    (DictReader (["openalex_id"] :: body)).
Proof.
  cbn [DictReader]. induction body as [|r body IH]; [constructor |].
  cbn [List.filter]. destruct r as [|v vs]; cbn [is_blank negb].
  - eapply Forall_impl; [exact IH |]. intros x (v & Hv & r & Hr & Hh).
    exists v. split; [exact Hv |]. exists r. split; [right; exact Hr | exact Hh].
  - cbn [map]. constructor.
    + exists v. split; [apply lookup_insert_eq |].
      exists (v :: vs). split; [left | reflexivity].
    + eapply Forall_impl; [exact IH |]. intros x (v' & Hv & r & Hr & Hh).
      exists v'. split; [exact Hv |]. exists r. split; [right; exact Hr | exact Hh].
Qed.

Lemma DictReader_written (ids : list string) :
  DictReader (["openalex_id"] :: map (fun id => [id]) ids)
  = map (fun id => <["openalex_id" := PStr id]> ∅) ids.
Proof.
  cbn [DictReader]. induction ids as [|id ids IH]; [reflexivity |].
  cbn [map List.filter is_blank negb]. f_equal. exact IH.
Qed.

(** Reading a ledger in the documented shape gives a set of strings read
    in text mode, which holds the id of every row on disk as text mode
    hands it over. *)
Lemma read_emailed_papers_ledger (w : world) (csv_path : string) :
  (∀ f, files w !! csv_path = Some f → ledger_format f) →
  ∃ old, read_emailed_papers csv_path w = (Ok old, w)
         ∧ (∀ v, v ∈ old → ∃ s, v = PStr s ∧ no_cr s)
         ∧ ∀ f r id, files w !! csv_path = Some f → r ∈ tail f →
                     row_id r = Some id →
                     PStr (universal_newlines id) ∈ old.
Proof.
  intros Hfmt. unfold read_emailed_papers.
  destruct (files w !! csv_path) as [f |] eqn:Hf.
  - specialize (Hfmt f eq_refl). destruct f as [|fieldnames body].
    + exists ∅. split; [reflexivity |]. split.
      * intros v Hv. now apply not_elem_of_empty in Hv.
      * intros f r id [= <-] Hr. now apply elem_of_nil in Hr.
    + cbn in Hfmt. subst fieldnames. rewrite open_text_ledger.
      pose proof (DictReader_ledger (open_text body)) as Hrows.
      pose proof (DictReader_no_cr (["openalex_id"] :: body)) as Hcr.
      rewrite open_text_ledger in Hcr.
      destruct (add_ids_spec (DictReader (["openalex_id"] :: open_text body)) ∅)
        as (old & -> & Hold).
      { eapply Forall_impl; [exact Hrows |]. intros x (v & -> & _). eauto. }
      exists old. split; [reflexivity |]. split.
      * intros v Hv. apply Hold in Hv as [Hv | (x & Hx & Hv)];
          [now apply not_elem_of_empty in Hv |].
        rewrite Forall_forall in Hrows, Hcr.
        destruct (Hrows x Hx) as (s & Hs & _). rewrite Hs in Hv.
        injection Hv as <-. exists s. split; [reflexivity |].
        eapply Hcr; eassumption.
      * intros f r id [= <-] Hr Hid. cbn [tail] in Hr.
        destruct r as [|v vs]; [discriminate Hid |]. injection Hid as ->.
        apply Hold. right.
        exists (zip_row ["openalex_id"] (map universal_newlines (id :: vs)) ∅).
        split; [| apply lookup_insert_eq].
        cbn [DictReader]. apply list_elem_of_fmap.
        exists (map universal_newlines (id :: vs)). split; [reflexivity |].
        apply list_elem_of_In, filter_In. split; [| reflexivity].
        apply in_map, list_elem_of_In, Hr.
  - exists ∅. split; [reflexivity |]. split.
    + intros v Hv. now apply not_elem_of_empty in Hv.
    + intros f r id Hf'. discriminate Hf'.
Qed.

(** Reading back what [update_emailed_papers] wrote: the ids as text mode
    hands them over. *)
Lemma read_emailed_papers_written (w : world) (csv_path : string)
    (ids : list string) :
  read_emailed_papers csv_path
    (set_file csv_path (["openalex_id"] :: map (fun id => [id]) ids) w)
  = (Ok (list_to_set (map PStr (map universal_newlines ids))),
     set_file csv_path (["openalex_id"] :: map (fun id => [id]) ids) w).
Proof.
  unfold read_emailed_papers. cbn [set_file files].
  rewrite lookup_insert_eq, open_text_ledger.
  assert (E : open_text (map (fun id => [id]) ids)
              = map (fun id => [id]) (map universal_newlines ids)).
  { unfold open_text. rewrite !map_map. reflexivity. }
  rewrite E, DictReader_written. f_equal.
  generalize (map universal_newlines ids) as l. intros l.
  assert (G : ∀ s : gset value,
    add_ids (map (fun id => <["openalex_id" := PStr id]> ∅) l) s
    = Ok (list_to_set (map PStr l) ∪ s)).
  { induction l as [|id l IH]; intros s; cbn [map add_ids].
    - cbn [list_to_set foldr]. now rewrite (left_id_L ∅ (∪)).
    - rewrite lookup_insert_eq, IH. cbn [list_to_set foldr]. f_equal.
      rewrite (assoc_L (∪)).
      rewrite (comm_L (∪) (list_to_set (map PStr l)) {[PStr id]}).
      reflexivity. }
  rewrite G. now rewrite (right_id_L ∅ (∪)).
Qed.

Lemma map_universal_newlines_id (ids : list string) :
  Forall no_cr ids → map universal_newlines ids = ids.
Proof.
  induction 1 as [|id ids Hid _ IH]; [reflexivity |].
  cbn [map]. now rewrite universal_newlines_id, IH.
Qed.

(** Strings sorted without repetition are strictly ascending. *)
Lemma sorted_values_strict (l : list value) :
  Forall (fun v => is_str v = true) l → NoDup l →
  StronglySorted (fun x y => String.le (str_of x) (str_of y)) l →
  StronglySorted (fun a b => String.ltb a b = true) (map str_of l).
Proof.
  intros Hstr Hnd Hs. induction Hs as [|x l Hs IH Hx]; [constructor |].
  apply Forall_cons in Hstr as [Hxs Hstr].
  apply NoDup_cons in Hnd as [Hxl Hnd].
  cbn [map]. constructor; [apply IH; assumption |].
  apply Forall_forall. intros b Hb.
  apply list_elem_of_fmap in Hb as (y & -> & Hy).
  rewrite Forall_forall in Hx, Hstr.
  apply le_ne_ltb; [apply Hx, Hy |].
  intros E. apply Hxl.
  specialize (Hstr y Hy). destruct x, y; try discriminate.
  cbn in E. subst. exact Hy.
Qed.

Lemma strict_NoDup (l : list string) :
  StronglySorted (fun a b => String.ltb a b = true) l → NoDup l.
Proof.
  induction 1 as [|x l Hs IH Hx]; constructor; [| exact IH].
  intros Hin. rewrite Forall_forall in Hx. specialize (Hx x Hin).
  rewrite ltb_irrefl in Hx. discriminate.
Qed.

(** What [update_emailed_papers] does to a ledger in the documented shape
    when every record has an id. *)
Lemma update_emailed_papers_spec (w : world) (papers : list paper)
    (csv_path : string) :
  (∀ f, files w !! csv_path = Some f → ledger_format f) →
  Forall has_id papers →
  ∃ (old : gset value) (ids : list string),
    read_emailed_papers csv_path w = (Ok old, w)
    ∧ update_emailed_papers papers csv_path w
      = (Ok tt, set_file csv_path
                  (["openalex_id"] :: map (fun id => [id]) ids) w)
    ∧ StronglySorted (fun a b => String.ltb a b = true) ids
    ∧ (∀ id, id ∈ ids ↔
             PStr id ∈ old
             ∨ ∃ x, x ∈ papers ∧ x !! "openalex_id" = Some (PStr id))
    ∧ (∀ v, v ∈ old → ∃ s, v = PStr s ∧ no_cr s)
    ∧ ∀ f r id, files w !! csv_path = Some f → r ∈ tail f →
                row_id r = Some id → universal_newlines id ∈ ids.
Proof.
  intros Hfmt Hids.
  destruct (read_emailed_papers_ledger w csv_path Hfmt)
    as (old & Hread & Hold & Hdisk).
  destruct (add_ids_spec papers old) as (all & Hadd & Hall).
  { eapply Forall_impl; [exact Hids |]. intros x [id ->]. eauto. }
  assert (Hstr : Forall (fun v => is_str v = true) (elements all)).
  { apply Forall_forall. intros v Hv. apply elem_of_elements, Hall in Hv.
    destruct Hv as [Hv | (x & Hx & Hv)].
    - destruct (Hold v Hv) as (s & -> & _). reflexivity.
    - rewrite Forall_forall in Hids. destruct (Hids x Hx) as [id Hid].
      rewrite Hid in Hv. injection Hv as <-. reflexivity. }
  destruct (list_sort_forward_spec (fun v => v) (elements all) Hstr)
    as (l & Hsort & Hperm & Hsorted).
  assert (Hmem : ∀ id, id ∈ map str_of l ↔
                       PStr id ∈ old
                       ∨ ∃ x, x ∈ papers ∧ x !! "openalex_id" = Some (PStr id)).
  { intros id. rewrite list_elem_of_fmap. split.
    - intros (v & -> & Hv). rewrite Hperm in Hv.
      assert (Hs : is_str v = true).
      { rewrite Forall_forall in Hstr. apply Hstr, Hv. }
      apply elem_of_elements, Hall in Hv.
      destruct v as [| s]; [discriminate |]. exact Hv.
    - intros H. exists (PStr id). split; [reflexivity |].
      rewrite Hperm. apply elem_of_elements, Hall, H. }
  exists old, (map str_of l). split; [exact Hread |].
  split; [| split; [| split; [exact Hmem | split; [exact Hold |]]]].
  - unfold update_emailed_papers, bind, lift. rewrite Hread, Hadd.
    unfold sorted. rewrite Hsort. rewrite map_map. reflexivity.
  - apply sorted_values_strict; [rewrite Hperm; exact Hstr | | exact Hsorted].
    rewrite Hperm. apply NoDup_elements.
  - intros f r id Hf Hr Hid. apply Hmem. left. eapply Hdisk; eassumption.
Qed.

(** Read back, the ledger [update_emailed_papers] wrote is the old ids and
    the new ones, when no new id holds a carriage return. *)
Lemma update_emailed_papers_read_back (w : world) (papers : list paper)
    (csv_path : string) (old : gset value) (ids : list string) :
  Forall has_text_id papers →
  (∀ id, id ∈ ids ↔
         PStr id ∈ old
         ∨ ∃ x, x ∈ papers ∧ x !! "openalex_id" = Some (PStr id)) →
  (∀ v, v ∈ old → ∃ s, v = PStr s ∧ no_cr s) →
  read_emailed_papers csv_path
    (set_file csv_path (["openalex_id"] :: map (fun id => [id]) ids) w)
  = (Ok (list_to_set (map PStr ids)),
     set_file csv_path (["openalex_id"] :: map (fun id => [id]) ids) w).
Proof.
  intros Hids Hmem Hold. rewrite read_emailed_papers_written.
  rewrite map_universal_newlines_id; [reflexivity |].
  apply Forall_forall. intros id Hid. apply Hmem in Hid as [Hid | (x & Hx & Hid)].
  - destruct (Hold _ Hid) as (s & [= <-] & Hs). exact Hs.
  - rewrite Forall_forall in Hids. destruct (Hids x Hx) as (id' & Hid' & Hcr).
    rewrite Hid in Hid'. injection Hid' as <-. exact Hcr.
Qed.

Lemma has_text_id_has_id (papers : list paper) :
  Forall has_text_id papers → Forall has_id papers.
Proof.
  intros H. eapply Forall_impl; [exact H |]. intros x (id & Hid & _).
  exists id. exact Hid.
Qed.

(** C6: on a ledger absent or in the documented shape, and records that
    all have a string id, [update_emailed_papers] rewrites the ledger as
    the header row followed by one row per id, the ids being exactly
    those read from the old ledger and those of the new records, strictly
    ascending (so without duplicates); and when no new id holds a carriage
    return, [read_emailed_papers] on the rewritten file yields exactly
    that union. *)
Theorem update_emailed_papers_roundtrip (w : world) (papers : list paper)
    (csv_path : string) :
  (∀ f, files w !! csv_path = Some f → ledger_format f) →
  Forall has_id papers →
  ∃ (old : gset value) (ids : list string) (w' : world),
    read_emailed_papers csv_path w = (Ok old, w)
    ∧ update_emailed_papers papers csv_path w = (Ok tt, w')
    ∧ w' = set_file csv_path (["openalex_id"] :: map (fun id => [id]) ids) w
    ∧ StronglySorted (fun a b => String.ltb a b = true) ids
    ∧ NoDup ids
    ∧ (∀ id, id ∈ ids ↔
             PStr id ∈ old
             ∨ ∃ x, x ∈ papers ∧ x !! "openalex_id" = Some (PStr id))
    ∧ (Forall has_text_id papers →
       ∃ new,
         read_emailed_papers csv_path w' = (Ok new, w')
         ∧ ∀ v, v ∈ new ↔
                v ∈ old ∨ ∃ x, x ∈ papers ∧ x !! "openalex_id" = Some v).
Proof.
  intros Hfmt Hids.
  destruct (update_emailed_papers_spec w papers csv_path Hfmt Hids)
    as (old & ids & Hread & Hupd & Hsorted & Hmem & Hold & _).
  exists old, ids, (set_file csv_path (["openalex_id"] :: map (fun id => [id]) ids) w).
  split; [exact Hread |]. split; [exact Hupd |]. split; [reflexivity |].
  split; [exact Hsorted |]. split; [apply strict_NoDup, Hsorted |].
  split; [exact Hmem |]. intros Htext.
  exists (list_to_set (map PStr ids)).
  split;
    [apply (update_emailed_papers_read_back w papers csv_path old ids
              Htext Hmem Hold) |].
  intros v. rewrite elem_of_list_to_set, list_elem_of_fmap. split.
  - intros (id & -> & Hid). apply Hmem, Hid.
  - intros H.
    assert (Hv : ∃ id, v = PStr id).
    { destruct H as [H | (x & Hx & Hv)].
      - destruct (Hold v H) as (s & -> & _). eauto.
      - rewrite Forall_forall in Hids. destruct (Hids x Hx) as [id Hid].
        rewrite Hid in Hv. injection Hv as <-. eauto. }
    destruct Hv as [id ->]. exists id. split; [reflexivity |].
    apply Hmem, H.
Qed.

Lemma update_emailed_papers_roundtrip_witness :
  ∃ (old : gset value) (ids : list string) (w' : world),
    read_emailed_papers "emailed_papers.csv" no_ledger_world
    = (Ok old, no_ledger_world)
    ∧ update_emailed_papers
        [paper_with_id "W3"; paper_with_id "W1"; paper_with_id "W2"]
        "emailed_papers.csv" no_ledger_world = (Ok tt, w')
    ∧ w' = set_file "emailed_papers.csv"
             (["openalex_id"] :: map (fun id => [id]) ids) no_ledger_world
    ∧ StronglySorted (fun a b => String.ltb a b = true) ids
    ∧ NoDup ids
    ∧ (∀ id, id ∈ ids ↔
             PStr id ∈ old
             ∨ ∃ x, x ∈ [paper_with_id "W3"; paper_with_id "W1"; paper_with_id "W2"]
                    ∧ x !! "openalex_id" = Some (PStr id))
    ∧ (Forall has_text_id
         [paper_with_id "W3"; paper_with_id "W1"; paper_with_id "W2"] →
       ∃ new,
         read_emailed_papers "emailed_papers.csv" w' = (Ok new, w')
         ∧ ∀ v, v ∈ new ↔
                v ∈ old
                ∨ ∃ x, x ∈ [paper_with_id "W3"; paper_with_id "W1"; paper_with_id "W2"]
                       ∧ x !! "openalex_id" = Some v).
Proof.
  apply (update_emailed_papers_roundtrip no_ledger_world
           [paper_with_id "W3"; paper_with_id "W1"; paper_with_id "W2"]
           "emailed_papers.csv").
  - intros f Hf. vm_compute in Hf. discriminate Hf.
  - repeat constructor; eexists; reflexivity.
Defined.

Example update_emailed_papers_on_disk :
  files (snd (update_emailed_papers
                [paper_with_id "W3"; paper_with_id "W1"; paper_with_id "W2"]
                "emailed_papers.csv" no_ledger_world))
    !! "emailed_papers.csv"
  = Some [["openalex_id"]; ["W1"]; ["W2"]; ["W3"]]
  ∧ fst (read_emailed_papers "emailed_papers.csv"
           (snd (update_emailed_papers
                   [paper_with_id "W3"; paper_with_id "W1"; paper_with_id "W2"]
                   "emailed_papers.csv" no_ledger_world)))
    = Ok {[ PStr "W1"; PStr "W2"; PStr "W3" ]}.
Proof. split; vm_compute; reflexivity. Qed.

(** Outside these records there is no round trip: a record without the
    key [openalex_id] makes [update_emailed_papers] raise [KeyError] and
    rewrite nothing, and a record whose id is [None] is written as the
    empty string, which is what is read back. *)
Lemma update_emailed_papers_not_every_record :
  update_emailed_papers [paper_with_id "W2"; ∅] "emailed_papers.csv"
    one_id_ledger_world
  = (Raise (KeyError "openalex_id"), one_id_ledger_world)
  ∧ add_ids [paper_without_id] ∅ = Ok {[ PNone ]}
  ∧ files (snd (update_emailed_papers [paper_without_id] "emailed_papers.csv"
                  no_ledger_world)) !! "emailed_papers.csv"
    = Some [["openalex_id"]; [""]]
  ∧ fst (read_emailed_papers "emailed_papers.csv"
           (snd (update_emailed_papers [paper_without_id] "emailed_papers.csv"
                   no_ledger_world)))
    = Ok {[ PStr "" ]}
  ∧ ({[ PStr "" ]} : gset value) ≠ {[ PNone ]}.
Proof.
  repeat split; try (vm_compute; reflexivity).
  intros H. assert (Hin : PStr "" ∈ ({[ PNone ]} : gset value))
    by (rewrite <- H; apply elem_of_singleton; reflexivity).
  apply elem_of_singleton in Hin. discriminate Hin.
Qed.

(** An id that holds a carriage return is stored as it is and read back
    with a line feed in its place: the reader opens the ledger without
    [newline=''], the writer with it. *)
Example read_emailed_papers_carriage_return :
  files (snd (update_emailed_papers [cr_paper] "emailed_papers.csv"
                no_ledger_world)) !! "emailed_papers.csv"
  = Some [["openalex_id"]; ["W1" ++ CR ++ "b"]]
  ∧ fst (read_emailed_papers "emailed_papers.csv"
           (snd (update_emailed_papers [cr_paper] "emailed_papers.csv"
                   no_ledger_world)))
    = Ok {[ PStr ("W1" ++ LF ++ "b") ]}.
Proof. split; vm_compute; reflexivity. Qed.

(** A ledger row that holds a carriage return is read with a line feed in
    its place, and rewritten so. *)
Example update_emailed_papers_carriage_return_row :
  fst (read_emailed_papers "emailed_papers.csv" cr_ledger_world)
  = Ok {[ PStr "W0"; PStr ("W1" ++ LF ++ "b") ]}
  ∧ files (snd (update_emailed_papers [] "emailed_papers.csv"
                  cr_ledger_world)) !! "emailed_papers.csv"
    = Some [["openalex_id"]; ["W0"]; ["W1" ++ LF ++ "b"]].
Proof. split; vm_compute; reflexivity. Qed.

(** C7: a ledger that holds [W0] and [W5], and a run whose pending file
    has a row that stops before the id.  [main] posts the message, then
    [update_emailed_papers] opens the ledger for writing, writes the
    header, and [sorted] raises [TypeError] on the id [None]: the ledger
    is left with its header, and the two ids it held are gone. *)
Theorem update_emailed_papers_loses_ids :
  files ragged_world !! "emailed_papers.csv"
  = Some [["openalex_id"]; ["W0"]; ["W5"]]
  ∧ fst (read_emailed_papers "emailed_papers.csv" ragged_world)
    = Ok {[ PStr "W0"; PStr "W5" ]}
  ∧ fst (main ragged_world) = Raise TypeError
  ∧ length (posted (snd (main ragged_world))) = 1%nat
  ∧ files (snd (main ragged_world)) !! "emailed_papers.csv"
    = Some [["openalex_id"]]
  ∧ fst (read_emailed_papers "emailed_papers.csv" (snd (main ragged_world)))
    = Ok ∅.
Proof. repeat split; vm_compute; reflexivity. Qed.

(** C8: for a path that names no file, [read_papers_to_notify] returns
    the empty list and [read_emailed_papers] the empty set; neither
    raises. *)
Theorem missing_files_read_empty (w : world) (csv_path : string) :
  files w !! csv_path = None →
  read_papers_to_notify csv_path w = (Ok [], w)
  ∧ read_emailed_papers csv_path w = (Ok ∅, w).
Proof.
  intros H. unfold read_papers_to_notify, read_emailed_papers.
  rewrite H. split; reflexivity.
Qed.

Lemma missing_files_read_empty_witness :
  read_papers_to_notify "union_papers_to_email.csv" no_ledger_world
  = (Ok [], no_ledger_world)
  ∧ read_emailed_papers "union_papers_to_email.csv" no_ledger_world
    = (Ok ∅, no_ledger_world).
Proof.
  apply (missing_files_read_empty no_ledger_world "union_papers_to_email.csv").
  reflexivity.
Defined.

(** ** The orchestrator *)

Lemma read_papers_to_notify_world (csv_path : string) (w : world) :
  snd (read_papers_to_notify csv_path w) = w.
Proof.
  unfold read_papers_to_notify. destruct (files w !! csv_path); reflexivity.
Qed.

Lemma read_papers_to_notify_pending (csv_path : string) (w1 w2 : world) :
  files w1 !! csv_path = files w2 !! csv_path →
  fst (read_papers_to_notify csv_path w1) = fst (read_papers_to_notify csv_path w2).
Proof.
  intros H. unfold read_papers_to_notify. rewrite H.
  destruct (files w2 !! csv_path); reflexivity.
Qed.

Lemma send_slack_message_world (url : string) (m : message) (w : world) :
  snd (send_slack_message url m w) = log_post url m w.
Proof.
  unfold send_slack_message. cbn [log_post network].
  destruct (network w url m) as [status body | code reason body | |];
    try reflexivity.
  - destruct (decode_utf8 body); [| reflexivity].
    destruct (_ && _); reflexivity.
  - destruct (decode_utf8 body); reflexivity.
Qed.

Lemma update_emailed_papers_posted (papers : list paper) (csv_path : string)
    (w : world) :
  posted (snd (update_emailed_papers papers csv_path w)) = posted w.
Proof.
  unfold update_emailed_papers, bind, lift, read_emailed_papers.
  destruct (files w !! csv_path) as [f |].
  - destruct (add_ids (DictReader (open_text f)) ∅) as [s | e]; [| reflexivity].
    destruct (add_ids papers s) as [s' | e]; [| reflexivity].
    destruct (sorted (elements s')); reflexivity.
  - destruct (add_ids papers ∅) as [s' | e]; [| reflexivity].
    destruct (sorted (elements s')); reflexivity.
Qed.


Lemma format_slack_message_eq (papers : list paper) (w : world) :
  format_slack_message papers w = (Ok (message_of papers (today w)), w).
Proof.
  unfold format_slack_message, message_of. now rewrite <- app_assoc.
Qed.


Lemma main_posted (w : world) :
  posted (snd (main w)) = (posts_of_run w ++ posted w)%list.
Proof.
  unfold main, bind, posts_of_run.
  pose proof (read_papers_to_notify_world "union_papers_to_email.csv" w) as Hw.
  destruct (read_papers_to_notify "union_papers_to_email.csv" w)
    as [[papers | e] w0]; cbn [fst snd] in Hw |- *; subst w0; [| reflexivity].
  destruct papers as [| x papers]; [reflexivity |].
  cbn [is_empty]. unfold getenv.
  destruct (truthy (value_of_option (environ w !! "SLACK_WEBHOOK_URL")));
    cbn [negb]; [| reflexivity].
  rewrite format_slack_message_eq.
  set (url := format_value _). set (m := message_of _ _).
  pose proof (send_slack_message_world url m w) as Hs.
  destruct (send_slack_message url m w) as [[success | e] w1];
    cbn [snd] in Hs; subst w1; [| reflexivity].
  destruct success; cbn [negb]; [| reflexivity].
  now rewrite update_emailed_papers_posted.
Qed.

(** C4: when the pending papers are read and not empty, the webhook URL
    is set and [send_slack_message] returns [False], [main] ends in
    [sys.exit(1)] and no file, the ledger included, has changed. *)
Theorem main_delivery_failure (w : world) (papers : list paper)
    (url : string) (message : message) :
  fst (read_papers_to_notify "union_papers_to_email.csv" w) = Ok papers →
  papers ≠ [] →
  environ w !! "SLACK_WEBHOOK_URL" = Some url →
  url ≠ "" →
  fst (format_slack_message papers w) = Ok message →
  fst (send_slack_message url message w) = Ok false →
  fst (main w) = Raise (SystemExit 1)
  ∧ exit_status (fst (main w)) = 1%Z
  ∧ files (snd (main w)) = files w.
Proof.
  intros Hread Hne Henv Hurl Hfmt Hsend.
  assert (G : fst (main w) = Raise (SystemExit 1) ∧ files (snd (main w)) = files w).
  { unfold main, bind.
    pose proof (read_papers_to_notify_world "union_papers_to_email.csv" w) as Hw.
    destruct (read_papers_to_notify "union_papers_to_email.csv" w) as [r w0].
    cbn [fst snd] in Hread, Hw. subst r w0.
    destruct papers as [| x papers]; [congruence |]. cbn [is_empty].
    unfold getenv. rewrite Henv. cbn [value_of_option truthy format_value].
    destruct (String.eqb_spec url ""); [congruence |]. cbn [negb].
    rewrite format_slack_message_eq in Hfmt |- *.
    cbn [fst] in Hfmt. injection Hfmt as <-.
    pose proof (send_slack_message_world url (message_of (x :: papers) (today w)) w) as Hs.
    destruct (send_slack_message url _ w) as [r w1].
    cbn [fst snd] in Hsend, Hs. subst r w1. cbn [negb].
    split; reflexivity. }
  destruct G as [G1 G2]. rewrite G1. auto.
Qed.





Lemma main_delivery_failure_witness :
  fst (main failing_world) = Raise (SystemExit 1)
  ∧ exit_status (fst (main failing_world)) = 1%Z
  ∧ files (snd (main failing_world)) = files failing_world.
Proof.
  apply (main_delivery_failure failing_world (DictReader one_paper) webhook
           (message_of (DictReader one_paper) "May 01, 2024")).
  - vm_compute. reflexivity.
  - vm_compute. discriminate.
  - vm_compute. reflexivity.
  - vm_compute. discriminate.
  - vm_compute. reflexivity.
  - vm_compute. reflexivity.
Defined.

Example failing_world_ledger_absent :
  files (snd (main failing_world)) !! "emailed_papers.csv" = None.
Proof. vm_compute. reflexivity. Qed.

(** C10: the message of a run does not depend on the ledger.  Two runs
    on the same day whose file systems agree on the pending file and
    differ anywhere else (ledger present, absent or different) post the
    same message if both post; with the same webhook setting they make
    exactly the same POSTs. *)
Theorem main_message_independent_of_ledger
    (fs1 fs2 : gmap string table) (env1 env2 : gmap string string)
    (date : string) (net1 net2 : string → message → outcome) :
  fs1 !! "union_papers_to_email.csv" = fs2 !! "union_papers_to_email.csv" →
  let run1 := snd (main (initial_world fs1 env1 date net1)) in
  let run2 := snd (main (initial_world fs2 env2 date net2)) in
  (∀ post1 post2,
     post1 ∈ posted run1 → post2 ∈ posted run2 → snd post1 = snd post2)
  ∧ (env1 !! "SLACK_WEBHOOK_URL" = env2 !! "SLACK_WEBHOOK_URL" →
     posted run1 = posted run2).
Proof.
  intros Hpending run1 run2. subst run1 run2.
  rewrite !main_posted. cbn [initial_world posted]. rewrite !app_nil_r.
  unfold posts_of_run.
  rewrite (read_papers_to_notify_pending _ (initial_world fs1 env1 date net1)
             (initial_world fs2 env2 date net2)) by exact Hpending.
  destruct (fst (read_papers_to_notify _ (initial_world fs2 env2 date net2)))
    as [papers | e]; cbn [initial_world environ today].
  - split.
    + intros post1 post2 H1 H2.
      destruct (is_empty papers); [now apply elem_of_nil in H1 |].
      destruct (truthy (value_of_option (env1 !! _)));
        [| now apply elem_of_nil in H1].
      destruct (truthy (value_of_option (env2 !! _)));
        [| now apply elem_of_nil in H2].
      apply list_elem_of_singleton in H1, H2. subst post1 post2. reflexivity.
    + intros ->. reflexivity.
  - split; [| reflexivity]. intros post1 post2 H1. now apply elem_of_nil in H1.
Qed.





Lemma main_message_independent_of_ledger_witness :
  let run1 :=
    snd (main (initial_world pending_only configured "May 01, 2024" accepting)) in
  let run2 :=
    snd (main (initial_world pending_and_ledger configured "May 01, 2024"
                 server_error)) in
  (∀ post1 post2,
     post1 ∈ posted run1 → post2 ∈ posted run2 → snd post1 = snd post2)
  ∧ (configured !! "SLACK_WEBHOOK_URL" = configured !! "SLACK_WEBHOOK_URL" →
     posted run1 = posted run2).
Proof.
  apply (main_message_independent_of_ledger pending_only pending_and_ledger
           configured configured "May 01, 2024" accepting server_error).
  vm_compute. reflexivity.
Defined.

Example main_posts_one_message :
  posted (snd (main (initial_world pending_only configured "May 01, 2024"
                       accepting)))
  = [(webhook, message_of (DictReader one_paper) "May 01, 2024")].
Proof. vm_compute. reflexivity. Qed.

(** ** The summary block *)

(** Decimal digits hold no space, so a pattern that starts with a space
    cannot begin inside the count. *)
Lemma contains_after_digits (p : string) (u : Decimal.uint) (t : string) :
  contains (String " " p) (NilEmpty.string_of_uint u ++ t)
  = contains (String " " p) t.
Proof.
  induction u; cbn [NilEmpty.string_of_uint];
    rewrite ?append_nil, ?append_cons, ?contains_skip by reflexivity; auto.
Qed.


Lemma contains_summary_text (p : string) (paper_count : nat) :
  contains (String " " (String "n" p)) (summary_text paper_count)
  = contains (String " " (String "n" p)) (summary_tail paper_count).
Proof.
  unfold summary_text, str_of_nat. fold (summary_tail paper_count).
  rewrite !append_cons, append_nil.
  rewrite !contains_skip by reflexivity.
  rewrite contains_unfold, startswith_same.
  rewrite startswith_differ by reflexivity. cbn [orb].
  rewrite !contains_skip by reflexivity.
  apply contains_after_digits.
Qed.

Lemma summary_singular (paper_count : nat) :
  contains " new paper* has been added" (summary_text paper_count) = true
  ↔ paper_count = 1.
Proof.
  rewrite contains_summary_text. unfold summary_tail, paper_word, have_word.
  destruct (Nat.eqb_spec paper_count 1) as [-> | Hne].
  - split; [reflexivity |]. intros _. vm_compute. reflexivity.
  - split; [| contradiction]. vm_compute. discriminate.
Qed.

Lemma summary_plural (paper_count : nat) :
  contains " new papers* have been added" (summary_text paper_count) = true
  ↔ paper_count ≠ 1.
Proof.
  rewrite contains_summary_text. unfold summary_tail, paper_word, have_word.
  destruct (Nat.eqb_spec paper_count 1) as [-> | Hne].
  - split; [| contradiction]. vm_compute. discriminate.
  - split; [intros _; exact Hne |]. intros _. vm_compute. reflexivity.
Qed.

(** C9: for one or more papers the second block of the message is the
    summary, its count followed by [paper]/[has] exactly when there is one
    paper and by [papers]/[have] otherwise. *)
Theorem format_slack_message_summary (papers : list paper) (w : world) :
  (1 ≤ length papers)%nat →
  ∃ message text word verb,
    format_slack_message papers w = (Ok message, w)
    ∧ msg_blocks message !! 1 = Some (BSection (Mrkdwn text))
    ∧ text = "The following *" ++ str_of_nat (length papers) ++ " new " ++ word
             ++ "* " ++ verb
             ++ " been added to the <https://economic.github.io/new_unions_papers/|Recent Union Papers> list:"
    ∧ (word = "paper" ∧ verb = "has" ↔ length papers = 1)
    ∧ (word = "papers" ∧ verb = "have" ↔ length papers ≠ 1)
    ∧ (contains " new paper* has been added" text = true ↔ length papers = 1)
    ∧ (contains " new papers* have been added" text = true
       ↔ length papers ≠ 1).
Proof.
  intros _.
  exists (message_of papers (today w)), (summary_text (length papers)),
    (paper_word (length papers)), (have_word (length papers)).
  split; [apply format_slack_message_eq |]. split; [reflexivity |].
  split; [reflexivity |].
  split; [| split; [| split; [apply summary_singular | apply summary_plural]]].
  - unfold paper_word, have_word.
    destruct (Nat.eqb_spec (length papers) 1) as [E | E].
    + split; auto.
    + split; [intros [H _]; discriminate H | contradiction].
  - unfold paper_word, have_word.
    destruct (Nat.eqb_spec (length papers) 1) as [E | E].
    + split; [intros [H _]; discriminate H | contradiction].
    + split; auto.
Qed.

Lemma format_slack_message_summary_witness :
  ∃ message text word verb,
    format_slack_message (DictReader one_paper) failing_world
    = (Ok message, failing_world)
    ∧ msg_blocks message !! 1 = Some (BSection (Mrkdwn text))
    ∧ text = "The following *" ++ str_of_nat (length (DictReader one_paper))
             ++ " new " ++ word ++ "* " ++ verb
             ++ " been added to the <https://economic.github.io/new_unions_papers/|Recent Union Papers> list:"
    ∧ (word = "paper" ∧ verb = "has" ↔ length (DictReader one_paper) = 1)
    ∧ (word = "papers" ∧ verb = "have" ↔ length (DictReader one_paper) ≠ 1)
    ∧ (contains " new paper* has been added" text = true
       ↔ length (DictReader one_paper) = 1)
    ∧ (contains " new papers* have been added" text = true
       ↔ length (DictReader one_paper) ≠ 1).
Proof.
  apply (format_slack_message_summary (DictReader one_paper) failing_world).
  vm_compute. lia.
Defined.

Example summary_text_one_and_two :
  summary_text 1
  = "The following *1 new paper* has been added to the <https://economic.github.io/new_unions_papers/|Recent Union Papers> list:"
  ∧ summary_text 2
    = "The following *2 new papers* have been added to the <https://economic.github.io/new_unions_papers/|Recent Union Papers> list:".
Proof. split; reflexivity. Qed.

(** ** The notifier *)

Lemma send_slack_message_true_iff (url : string) (m : message) (w : world) :
  fst (send_slack_message url m w) = Ok true
  ↔ ∃ body, network w url m = Responded 200 body ∧ decode_utf8 body = Ok "ok".
Proof.
  unfold send_slack_message. cbn [log_post network]. split.
  - destruct (network w url m) as [status body | code reason body | r | d];
      [| destruct (decode_utf8 body); discriminate | discriminate..].
    destruct (decode_utf8 body) as [text | e] eqn:Hd; [| discriminate].
    destruct (Z.eqb_spec status 200) as [-> | Hs]; [| discriminate].
    destruct (String.eqb_spec text "ok") as [-> | Ht]; [| discriminate].
    intros _. exists body. auto.
  - intros (body & -> & ->). reflexivity.
Qed.


Lemma send_slack_message_handled (url : string) (m : message) (w : world) :
  handled (network w url m) →
  ∃ success, fst (send_slack_message url m w) = Ok success.
Proof.
  unfold send_slack_message, handled. cbn [log_post network].
  destruct (network w url m) as [status body | code reason body | r | d].
  - intros _. destruct (decode_utf8 body); [| eauto].
    destruct (_ && _); eauto.
  - intros [text ->]. eauto.
  - eauto.
  - eauto.
Qed.





(** C3: an HTTP error whose body is not UTF-8 (here a 502 with the
    Latin-1 bytes of [caf\xe9]) makes the [HTTPError] handler itself raise
    [UnicodeDecodeError]: [send_slack_message] does not return [False],
    and [main] ends on the uncaught exception. *)
Theorem send_slack_message_raises_in_handler :
  fst (send_slack_message webhook
         (message_of (DictReader one_paper) "May 01, 2024") latin1_world)
  = Raise UnicodeDecodeError
  ∧ fst (main latin1_world) = Raise UnicodeDecodeError.
Proof. split; vm_compute; reflexivity. Qed.

(** ** The paper block *)


(** C1: a record with a DOI, an empty journal and a date.  No journal
    segment is emitted, yet the third line of the block starts with the
    separator. *)
Theorem paper_text_doi_without_journal :
  truthy (dict_get doi_without_journal "doi" (PStr "")) = true
  ∧ escape_slack_text (dict_get doi_without_journal "journal" (PStr "")) = ""
  ∧ paper_text doi_without_journal
    = "*A*" ++ LF ++ "_T_" ++ LF ++ "  |  📅 2024-05-01".
Proof. repeat split; vm_compute; reflexivity. Qed.

Lemma paper_text_separator_without_segment (x : paper) (doi date : string) :
  x !! "doi" = Some (PStr doi) → doi ≠ "" →
  escape_slack_text (dict_get x "journal" (PStr "")) = "" →
  x !! "publication_date" = Some (PStr date) → date ≠ "" →
  paper_text x
  = ("*" ++ escape_slack_text (dict_get x "authors" (PStr "")) ++ "*" ++ LF
     ++ "_" ++ escape_slack_text (dict_get x "title" (PStr "")) ++ "_" ++ LF)
    ++ "  |  📅 " ++ date.
Proof.
  intros Hdoi Hd Hj Hdate Hp.
  assert (Ed : dict_get x "doi" (PStr "") = PStr doi)
    by (unfold dict_get; now rewrite Hdoi).
  assert (Ep : dict_get x "publication_date" (PStr "") = PStr date)
    by (unfold dict_get; now rewrite Hdate).
  unfold paper_text. rewrite Hj, Ed, Ep.
  cbn [truthy nonempty format_value].
  destruct (String.eqb_spec doi ""); [contradiction |].
  destruct (String.eqb_spec date ""); [contradiction |].
  reflexivity.
Qed.

Lemma paper_text_date_after_journal (x : paper) (date : string) :
  escape_slack_text (dict_get x "journal" (PStr "")) ≠ "" →
  x !! "publication_date" = Some (PStr date) → date ≠ "" →
  ∃ segment,
    contains "📄 " segment = true
    ∧ paper_text x
      = (("*" ++ escape_slack_text (dict_get x "authors" (PStr "")) ++ "*" ++ LF
          ++ "_" ++ escape_slack_text (dict_get x "title" (PStr "")) ++ "_" ++ LF)
         ++ segment)
        ++ "  |  📅 " ++ date.
Proof.
  intros Hj Hdate Hp.
  assert (Ep : dict_get x "publication_date" (PStr "") = PStr date)
    by (unfold dict_get; now rewrite Hdate).
  unfold paper_text. rewrite Ep.
  set (journal := escape_slack_text (dict_get x "journal" (PStr ""))) in *.
  cbn [truthy format_value]. unfold nonempty.
  destruct (String.eqb_spec journal ""); [contradiction |].
  destruct (String.eqb_spec date ""); [contradiction |].
  rewrite orb_true_r, andb_true_r. cbn [negb].
  destruct (truthy (dict_get x "doi" (PStr ""))).
  - exists ("📄 <" ++ format_value (dict_get x "doi" (PStr "")) ++ "|" ++ journal ++ ">").
    split; [reflexivity |]. now rewrite !append_assoc.
  - exists ("📄 " ++ journal). split; [reflexivity |]. now rewrite !append_assoc.
Qed.

Lemma paper_text_date_alone (x : paper) (date : string) :
  truthy (dict_get x "doi" (PStr "")) = false →
  escape_slack_text (dict_get x "journal" (PStr "")) = "" →
  x !! "publication_date" = Some (PStr date) → date ≠ "" →
  paper_text x
  = ("*" ++ escape_slack_text (dict_get x "authors" (PStr "")) ++ "*" ++ LF
     ++ "_" ++ escape_slack_text (dict_get x "title" (PStr "")) ++ "_" ++ LF)
    ++ "📅 " ++ date.
Proof.
  intros Hdoi Hj Hdate Hp.
  assert (Ep : dict_get x "publication_date" (PStr "") = PStr date)
    by (unfold dict_get; now rewrite Hdate).
  unfold paper_text. rewrite Hj, Hdoi, Ep.
  cbn [truthy nonempty format_value andb orb].
  destruct (String.eqb_spec date ""); [contradiction |].
  reflexivity.
Qed.


(** * Further properties *)

(** ** More on escaping *)

Lemma special_false (c : ascii) :
  special c = false →
  Ascii.eqb c "&" = false ∧ Ascii.eqb c "<" = false ∧ Ascii.eqb c ">" = false.
Proof.
  unfold special. intros H.
  apply orb_false_iff in H as [H H3]. apply orb_false_iff in H as [H1 H2].
  auto.
Qed.

Lemma escape_pass_no_angle (s : string) :
  contains "<" (escape_pass s) = false ∧ contains ">" (escape_pass s) = false.
Proof.
  induction s as [|c s [IH1 IH2]]; [split; reflexivity |].
  cbn [escape_pass].
  destruct (entity_cases c) as [[-> E] | [[-> E] | [[-> E] | [Hc E]]]];
    rewrite E, !append_cons, append_nil.
  1-3: rewrite !contains_skip by reflexivity; auto.
  apply special_false in Hc as (_ & H2 & H3).
  rewrite !contains_skip by (now rewrite Ascii.eqb_sym). auto.
Qed.

Lemma escape_value_no_angle (text : value) :
  contains "<" (escape_slack_text text) = false
  ∧ contains ">" (escape_slack_text text) = false.
Proof.
  destruct text as [| s]; [split; reflexivity |].
  rewrite escape_slack_text_one_pass. apply escape_pass_no_angle.
Qed.

(** X1: whatever the field holds ([None] included), the escaped text
    contains neither [<] nor [>]. *)
Theorem escape_slack_text_no_angle (text : value) :
  contains "<" (escape_slack_text text) = false
  ∧ contains ">" (escape_slack_text text) = false.
Proof. apply escape_value_no_angle. Qed.

Lemma append_eq_cons (a b : string) (c : ascii) (t : string) :
  a ++ b = String c t →
  (a = "" ∧ b = String c t) ∨ ∃ a', a = String c a' ∧ a' ++ b = t.
Proof.
  destruct a as [|x a]; [left; auto |].
  rewrite append_cons. intros [= -> <-]. right. eauto.
Qed.

Lemma escape_pass_ampersand (s pre post : string) :
  escape_pass s = pre ++ "&" ++ post →
  startswith "amp;" post = true ∨ startswith "lt;" post = true
  ∨ startswith "gt;" post = true.
Proof.
  revert pre. induction s as [|c s IH]; intros pre H.
  - destruct pre; discriminate H.
  - cbn [escape_pass] in H.
    destruct (entity_cases c) as [[-> E] | [[-> E] | [[-> E] | [Hc E]]]];
      rewrite E, ?append_cons, ?append_nil in H.
    + destruct pre as [|x1 pre]; [injection H as <-; left; now rewrite !startswith_same |].
      rewrite append_cons in H. injection H as <- H.
      do 4 (destruct pre as [|? pre]; [discriminate H |];
            rewrite append_cons in H; injection H as <- H).
      eapply IH, H.
    + destruct pre as [|x1 pre];
        [injection H as <-; right; left; now rewrite !startswith_same |].
      rewrite append_cons in H. injection H as <- H.
      do 3 (destruct pre as [|? pre]; [discriminate H |];
            rewrite append_cons in H; injection H as <- H).
      eapply IH, H.
    + destruct pre as [|x1 pre];
        [injection H as <-; right; right; now rewrite !startswith_same |].
      rewrite append_cons in H. injection H as <- H.
      do 3 (destruct pre as [|? pre]; [discriminate H |];
            rewrite append_cons in H; injection H as <- H).
      eapply IH, H.
    + destruct pre as [|x1 pre].
      * injection H as -> _.
        discriminate Hc.
      * rewrite append_cons in H. injection H as <- H. eapply IH, H.
Qed.

(** X2: every [&] of the escaped text begins one of the three entities:
    wherever the escaped text splits around an ampersand, what follows
    starts with [amp;], [lt;] or [gt;]. *)
Theorem escape_slack_text_ampersand (text : value) (pre post : string) :
  escape_slack_text text = pre ++ "&" ++ post →
  startswith "amp;" post = true ∨ startswith "lt;" post = true
  ∨ startswith "gt;" post = true.
Proof.
  destruct text as [| s].
  - cbn. destruct pre; discriminate.
  - rewrite escape_slack_text_one_pass. apply escape_pass_ampersand.
Qed.

Lemma escape_slack_text_ampersand_witness :
  startswith "amp;" "amp;B" = true ∨ startswith "lt;" "amp;B" = true
  ∨ startswith "gt;" "amp;B" = true.
Proof.
  apply (escape_slack_text_ampersand (PStr "A&B") "A" "amp;B").
  reflexivity.
Defined.

Lemma contains_char_cons (a c : ascii) (t : string) :
  contains (String a "") (String c t)
  = Ascii.eqb a c || contains (String a "") t.
Proof.
  rewrite contains_unfold. cbn [startswith]. now rewrite andb_true_r.
Qed.

Lemma plain_cons (c : ascii) (s : string) :
  plain (String c s) ↔ special c = false ∧ plain s.
Proof.
  unfold plain, special. rewrite !contains_char_cons.
  rewrite !(Ascii.eqb_sym c). rewrite !orb_false_iff. tauto.
Qed.

Lemma length_append (a b : string) :
  String.length (a ++ b) = (String.length a + String.length b)%nat.
Proof.
  induction a as [|c a IH]; rewrite ?append_nil, ?append_cons; cbn [String.length];
    [reflexivity | now rewrite IH].
Qed.

Lemma entity_length (c : ascii) :
  (1 ≤ String.length (entity c))%nat
  ∧ (String.length (entity c) = 1%nat → special c = false).
Proof.
  destruct (entity_cases c) as [[-> E] | [[-> E] | [[-> E] | [Hc E]]]];
    rewrite E; cbn; split; (lia || auto).
Qed.

Lemma escape_pass_length (s : string) :
  (String.length s ≤ String.length (escape_pass s))%nat
  ∧ (String.length (escape_pass s) = String.length s → plain s).
Proof.
  induction s as [|c s [IH1 IH2]]; [split; [reflexivity | now intros _] |].
  cbn [escape_pass]. rewrite length_append. cbn [String.length].
  destruct (entity_length c) as [H1 H2]. split; [lia |].
  intros H. apply plain_cons. split; [apply H2; lia | apply IH2; lia].
Qed.

Lemma escape_pass_plain (s : string) : plain s → escape_pass s = s.
Proof.
  induction s as [|c s IH]; [reflexivity |].
  intros [Hc Hs]%plain_cons. cbn [escape_pass].
  now rewrite (entity_plain c Hc), append_cons, append_nil, IH.
Qed.

Lemma escape_pass_fixed (s : string) : escape_pass s = s ↔ plain s.
Proof.
  split; [| apply escape_pass_plain].
  intros H. apply escape_pass_length. now rewrite H.
Qed.

Lemma contains_shorter (a b t : string) :
  contains (a ++ b) t = true → contains a t = true.
Proof.
  intros H. apply contains_elim in H as (x & y & ->).
  rewrite append_assoc. apply contains_intro.
Qed.

Lemma escape_pass_plain_origin (s : string) : plain (escape_pass s) → plain s.
Proof.
  intros (H1 & H2 & H3). unfold plain.
  destruct (contains "&" s) eqn:E1.
  { apply (contains_entity "&") in E1. apply (contains_shorter "&" "amp;") in E1.
    congruence. }
  destruct (contains "<" s) eqn:E2.
  { apply (contains_entity "<") in E2. apply (contains_shorter "&" "lt;") in E2.
    congruence. }
  destruct (contains ">" s) eqn:E3.
  { apply (contains_entity ">") in E3. apply (contains_shorter "&" "gt;") in E3.
    congruence. }
  auto.
Qed.

(** X3: escaping leaves a text unchanged exactly when the text holds none
    of [&], [<], [>]; escaping twice equals escaping once exactly for those
    texts; and escaping never shortens a text. *)
Theorem escape_slack_text_fixed_points (text : string) :
  (escape_slack_text (PStr text) = text ↔ plain text)
  ∧ (escape_slack_text (PStr (escape_slack_text (PStr text)))
     = escape_slack_text (PStr text) ↔ plain text)
  ∧ (String.length text ≤ String.length (escape_slack_text (PStr text)))%nat.
Proof.
  rewrite !escape_slack_text_one_pass. split; [apply escape_pass_fixed |].
  split; [| apply escape_pass_length].
  rewrite escape_pass_fixed. split; [apply escape_pass_plain_origin |].
  intros H. now rewrite (escape_pass_plain text H).
Qed.

Lemma entity_not_empty (c : ascii) (t : string) : entity c ++ t ≠ "".
Proof.
  destruct (entity_cases c) as [[-> E] | [[-> E] | [[-> E] | [Hc E]]]];
    rewrite E, append_cons; discriminate.
Qed.

Lemma escape_pass_injective (s1 s2 : string) :
  escape_pass s1 = escape_pass s2 → s1 = s2.
Proof.
  revert s2. induction s1 as [|c1 s1 IH]; intros [|c2 s2] H;
    cbn [escape_pass] in H.
  - reflexivity.
  - symmetry in H. now apply entity_not_empty in H.
  - now apply entity_not_empty in H.
  - destruct (entity_cases c1) as [[-> E1] | [[-> E1] | [[-> E1] | [H1 E1]]]];
      destruct (entity_cases c2) as [[-> E2] | [[-> E2] | [[-> E2] | [H2 E2]]]];
      rewrite ?E1, ?E2, ?append_cons, ?append_nil in H;
      try discriminate H;
      try (injection H as H; f_equal; apply IH, H);
      try (injection H as <- _; discriminate H2);
      try (injection H as -> _; discriminate H1).
    injection H as -> H. f_equal. apply IH, H.
Qed.

(** X4: escaping loses nothing: two texts with the same escaped form are
    equal. *)
Theorem escape_slack_text_injective (text1 text2 : string) :
  escape_slack_text (PStr text1) = escape_slack_text (PStr text2) →
  text1 = text2.
Proof. rewrite !escape_slack_text_one_pass. apply escape_pass_injective. Qed.

Lemma escape_slack_text_injective_witness : "R&D <a>" = "R&D <a>".
Proof. apply (escape_slack_text_injective "R&D <a>" "R&D <a>"). reflexivity. Defined.

(** X5: escaping distributes over concatenation. *)
Theorem escape_slack_text_app (a b : string) :
  escape_slack_text (PStr (a ++ b))
  = escape_slack_text (PStr a) ++ escape_slack_text (PStr b).
Proof. rewrite !escape_slack_text_one_pass. apply escape_pass_app. Qed.

(** ** More on the pending papers *)

Lemma zip_row_lookup_other (fieldnames : list string) (r : row) (d : paper)
    (k : string) :
  k ∉ fieldnames → zip_row fieldnames r d !! k = d !! k.
Proof.
  revert r d. induction fieldnames as [|k' ks IH]; intros r d Hk; [reflexivity |].
  apply not_elem_of_cons in Hk as [Hne Hk].
  destruct r as [|v vs]; cbn [zip_row]; rewrite IH by exact Hk;
    now rewrite lookup_insert_ne.
Qed.

Lemma zip_row_dom (fieldnames : list string) (r : row) (d : paper) :
  dom (zip_row fieldnames r d) = list_to_set fieldnames ∪ dom d.
Proof.
  revert r d. induction fieldnames as [|k ks IH]; intros r d.
  - cbn [zip_row list_to_set foldr]. destruct r; now rewrite (left_id_L ∅ (∪)).
  - destruct r as [|v vs]; cbn [zip_row]; rewrite IH, dom_insert_L;
      cbn [list_to_set foldr]; rewrite (assoc_L (∪));
      now rewrite (comm_L (∪) (list_to_set ks) {[k]}).
Qed.

Section SortedInput.
Context {A : Type} (key : A → value).

Lemma sort_stable_sorted (l : list A) :
Forall (fun x => is_str (key x) = true) l →
StronglySorted (fun x y => String.le (str_of (key x)) (str_of (key y))) l →
sort_stable key l = Ok l.
Proof.
intros Hk Hs. induction Hs as [|x l Hs IH Hx]; [reflexivity |].
apply Forall_cons in Hk as [Hkx Hk].
cbn [sort_stable]. rewrite (IH Hk). cbn [rbind].
destruct l as [|y l]; [reflexivity |]. cbn [insert_sorted].
apply Forall_cons in Hk as [Hky _]. apply Forall_cons in Hx as [Hxy _].
destruct (key x) as [| sx], (key y) as [| sy]; try discriminate.
cbn [lt_value rbind str_of] in *.
apply ltb_false_le in Hxy. now rewrite Hxy.
Qed.

Lemma list_sort_reverse_sorted (l : list A) :
Forall (fun x => is_str (key x) = true) l →
StronglySorted (fun x y => String.le (str_of (key y)) (str_of (key x))) l →
list_sort key true l = Ok l.
Proof.
intros Hk Hs. unfold list_sort. rewrite sort_stable_sorted.
- cbn [rbind]. now rewrite rev_involutive.
- rewrite <- (Permutation_rev l). exact Hk.
- apply StronglySorted_rev in Hs. exact Hs.
Qed.
End SortedInput.

(** X6: a pending file whose records are already in descending order of
    [publication_date] (all dates strings) is returned exactly in file
    order, records with equal dates included. *)
Theorem read_papers_to_notify_sorted_input (w : world) (csv_path : string)
    (f : table) :
  files w !! csv_path = Some f →
  Forall (fun x => is_str (publication_date_key x) = true)
    (DictReader (open_text f)) →
  StronglySorted
    (fun x y => String.le (publication_date y) (publication_date x))
    (DictReader (open_text f)) →
  read_papers_to_notify csv_path w = (Ok (DictReader (open_text f)), w).
Proof.
  intros Hf Hk Hs. unfold read_papers_to_notify. rewrite Hf.
  now rewrite list_sort_reverse_sorted.
Qed.

Lemma read_papers_to_notify_sorted_input_witness :
  read_papers_to_notify "union_papers_to_email.csv" sorted_dates_world
  = (Ok (DictReader (open_text sorted_dates)), sorted_dates_world).
Proof.
  apply (read_papers_to_notify_sorted_input sorted_dates_world
           "union_papers_to_email.csv" sorted_dates).
  - reflexivity.
  - repeat constructor.
  - repeat constructor.
Defined.

(** Text mode changes a text only by putting line feeds in it. *)
Lemma universal_newlines_without_lf (s : string) :
  contains LF (universal_newlines s) = false → universal_newlines s = s.
Proof.
  assert (Hlf : ∀ c t, contains LF (String c t)
                       = Ascii.eqb "010" c || contains LF t).
  { intros c t. unfold LF. rewrite contains_unfold. cbn [startswith].
    now rewrite andb_true_r. }
  assert (G : (contains LF (universal_newlines s) = false →
               universal_newlines s = s)
              ∧ ∀ c, contains LF (universal_newlines (String c s)) = false →
                     universal_newlines (String c s) = String c s).
  { induction s as [|a s [IH1 IH2]].
    - split; [reflexivity |]. intros c. cbn [universal_newlines].
      destruct (Ascii.eqb c "013"); [discriminate | reflexivity].
    - split; [apply IH2 |]. intros c.
      destruct (Ascii.eqb_spec c "013") as [-> | Hc].
      + cbn [universal_newlines Ascii.eqb Bool.eqb]. rewrite Hlf.
        discriminate.
      + apply Ascii.eqb_neq in Hc. rewrite universal_newlines_cons by exact Hc.
        rewrite Hlf. intros H. apply orb_false_iff in H as [_ H].
        now rewrite (IH2 a H). }
  apply G.
Qed.

(** A column name without line feed is in the header text mode hands over
    only if it is in the header on disk. *)
Lemma not_in_text_header (fieldnames : list string) (k : string) :
  contains LF k = false → k ∉ fieldnames →
  k ∉ map universal_newlines fieldnames.
Proof.
  intros Hlf Hk Hin. apply list_elem_of_fmap in Hin as (s & -> & Hs).
  apply universal_newlines_without_lf in Hlf. rewrite Hlf in Hk. contradiction.
Qed.

Lemma DictReader_no_column (fieldnames : list string) (rows : list row)
    (k : string) :
  k ∉ fieldnames →
  Forall (fun x => x !! k = None) (DictReader (fieldnames :: rows)).
Proof.
  intros Hk. cbn [DictReader]. apply Forall_forall. intros x Hx.
  apply list_elem_of_fmap in Hx as (r & -> & _).
  rewrite zip_row_lookup_other by exact Hk. apply lookup_empty.
Qed.

(** X7: when the header of the pending file has no [publication_date]
    column, every sort key is the default [''], nothing raises and the
    records come back in file order. *)
Theorem read_papers_to_notify_no_date_column (w : world) (csv_path : string)
    (fieldnames : list string) (rows : list row) :
  files w !! csv_path = Some (fieldnames :: rows) →
  "publication_date" ∉ fieldnames →
  read_papers_to_notify csv_path w
  = (Ok (DictReader (open_text (fieldnames :: rows))), w).
Proof.
  intros Hf Hk. apply (not_in_text_header fieldnames) in Hk; [| reflexivity].
  rewrite open_text_cons.
  pose proof (DictReader_no_column (map universal_newlines fieldnames)
                (open_text rows) "publication_date" Hk) as Hn.
  assert (Hd : Forall (fun x => publication_date_key x = PStr "")
                 (DictReader (map universal_newlines fieldnames
                              :: open_text rows))).
  { eapply Forall_impl; [exact Hn |]. intros x Hx.
    unfold publication_date_key, dict_get. now rewrite Hx. }
  unfold read_papers_to_notify. rewrite Hf, open_text_cons.
  rewrite list_sort_reverse_sorted; [reflexivity | |].
  - eapply Forall_impl; [exact Hd |]. intros x ->. reflexivity.
  - clear Hf Hn. induction Hd as [|x l Hx Hd IH]; constructor; [exact IH |].
    eapply Forall_impl; [exact Hd |]. intros y Hy.
    rewrite Hx, Hy. reflexivity.
Qed.

Lemma read_papers_to_notify_no_date_column_witness :
  read_papers_to_notify "union_papers_to_email.csv" undated_world
  = (Ok (DictReader (open_text undated)), undated_world).
Proof.
  apply (read_papers_to_notify_no_date_column undated_world
           "union_papers_to_email.csv" ["openalex_id"; "title"]
           [["W2"; "B"]; []; ["W1"; "A"]]).
  - reflexivity.
  - intros H. repeat (apply elem_of_cons in H as [H | H]; [discriminate H |]).
    now apply elem_of_nil in H.
Defined.

(** X8: with two records or more, one of them with [publication_date]
    [None] (a row shorter than the header), [read_papers_to_notify] raises
    [TypeError]. *)
Theorem read_papers_to_notify_short_row_raises (w : world) (csv_path : string)
    (f : table) :
  files w !! csv_path = Some f →
  (2 ≤ length (DictReader (open_text f)))%nat →
  Exists (fun x => publication_date_key x = PNone) (DictReader (open_text f)) →
  read_papers_to_notify csv_path w = (Raise TypeError, w).
Proof. apply read_papers_to_notify_none_date. Qed.

Lemma read_papers_to_notify_short_row_raises_witness :
  read_papers_to_notify "union_papers_to_email.csv" short_row_world
  = (Raise TypeError, short_row_world).
Proof.
  apply (read_papers_to_notify_short_row_raises short_row_world
           "union_papers_to_email.csv" short_row).
  - reflexivity.
  - vm_compute. lia.
  - apply Exists_cons_tl, Exists_cons_hd. reflexivity.
Defined.

Section SortPermutes.
Context {A : Type} (key : A → value).

Lemma insert_sorted_perm (x : A) (l s : list A) :
insert_sorted key x l = Ok s → s ≡ₚ x :: l.
Proof.
revert s. induction l as [|y l IH]; intros s; cbn [insert_sorted].
- intros [= <-]. reflexivity.
- destruct (lt_value (key y) (key x)) as [[|] | e]; cbn [rbind];
    [| intros [= <-]; reflexivity | discriminate].
  destruct (insert_sorted key x l) as [s' | e]; cbn [rbind]; [| discriminate].
  intros [= <-]. rewrite (IH s' eq_refl). apply perm_swap.
Qed.

Lemma sort_stable_perm (l s : list A) : sort_stable key l = Ok s → s ≡ₚ l.
Proof.
revert s. induction l as [|x l IH]; intros s; cbn [sort_stable].
- intros [= <-]. reflexivity.
- destruct (sort_stable key l) as [s' | e]; cbn [rbind]; [| discriminate].
  intros H. rewrite (insert_sorted_perm _ _ _ H), (IH s' eq_refl). reflexivity.
Qed.
End SortPermutes.

Lemma read_papers_to_notify_perm (csv_path : string) (w : world)
    (papers : list paper) :
  fst (read_papers_to_notify csv_path w) = Ok papers →
  papers ≡ₚ match files w !! csv_path with
            | Some f => DictReader (open_text f)
            | None => []
            end.
Proof.
  unfold read_papers_to_notify.
  destruct (files w !! csv_path) as [f |]; cbn [fst].
  - unfold list_sort.
    destruct (sort_stable publication_date_key _) as [s | e] eqn:Hs;
      [| discriminate].
    apply sort_stable_perm in Hs. cbn [rbind]. intros [= <-].
    rewrite <- (Permutation_rev s), Hs, <- Permutation_rev. reflexivity.
  - intros [= <-]. reflexivity.
Qed.

(** The ids that come out of a file read in text mode hold no carriage
    return. *)
Lemma read_papers_to_notify_text_ids (csv_path : string) (w : world)
    (papers : list paper) :
  fst (read_papers_to_notify csv_path w) = Ok papers →
  Forall has_id papers → Forall has_text_id papers.
Proof.
  intros Hr Hids. apply read_papers_to_notify_perm in Hr.
  assert (Hcr : Forall (fun x => ∀ k s, x !! k = Some (PStr s) → no_cr s)
                  papers).
  { rewrite Hr. destruct (files w !! csv_path) as [f |];
      [apply DictReader_no_cr | constructor]. }
  rewrite Forall_forall in Hids, Hcr. apply Forall_forall. intros x Hx.
  destruct (Hids x Hx) as [id Hid]. exists id. split; [exact Hid |].
  exact (Hcr x Hx _ _ Hid).
Qed.

Lemma open_text_non_blank (rows : list row) :
  List.filter (fun r => negb (is_blank r)) (open_text rows)
  = open_text (List.filter (fun r => negb (is_blank r)) rows).
Proof.
  induction rows as [|r rows IH]; [reflexivity |].
  rewrite open_text_cons. cbn [List.filter].
  destruct r as [|v vs]; cbn [map is_blank negb]; [exact IH |].
  now rewrite open_text_cons, IH.
Qed.

(** X9: when [read_papers_to_notify] returns, it returns one record per
    non-blank row after the header, and every record has every column of
    the header, as text mode hands its name over, as a key. *)
Theorem read_papers_to_notify_count (w : world) (csv_path : string)
    (fieldnames : list string) (rows : list row) (papers : list paper) :
  files w !! csv_path = Some (fieldnames :: rows) →
  fst (read_papers_to_notify csv_path w) = Ok papers →
  length papers = length (List.filter (fun r => negb (is_blank r)) rows)
  ∧ Forall (fun x => ∀ k, k ∈ fieldnames →
                          is_Some (x !! universal_newlines k)) papers.
Proof.
  intros Hf Hr. unfold read_papers_to_notify in Hr. rewrite Hf in Hr.
  cbn [fst] in Hr. unfold list_sort in Hr.
  destruct (sort_stable publication_date_key _) as [s | e] eqn:Hs;
    [| discriminate].
  apply sort_stable_perm in Hs as Hp.
  cbn [rbind] in Hr. injection Hr as <-.
  assert (Hperm : rev s ≡ₚ DictReader (open_text (fieldnames :: rows))).
  { rewrite <- (Permutation_rev s), Hp, <- Permutation_rev. reflexivity. }
  rewrite open_text_cons in Hperm. split.
  - rewrite Hperm. cbn [DictReader].
    rewrite length_map, open_text_non_blank. unfold open_text.
    now rewrite length_map.
  - rewrite Hperm. cbn [DictReader]. apply Forall_forall. intros x Hx.
    apply list_elem_of_fmap in Hx as (r & -> & _).
    intros k Hk. apply elem_of_dom. rewrite zip_row_dom.
    apply elem_of_union_l, elem_of_list_to_set, list_elem_of_fmap.
    exists k. auto.
Qed.

Lemma read_papers_to_notify_count_witness :
  length (DictReader undated)
  = length (List.filter (fun r => negb (is_blank r))
              [["W2"; "B"]; []; ["W1"; "A"]])
  ∧ Forall (fun x => ∀ k, k ∈ ["openalex_id"; "title"] →
                          is_Some (x !! universal_newlines k))
      (DictReader undated).
Proof.
  apply (read_papers_to_notify_count undated_world "union_papers_to_email.csv"
           ["openalex_id"; "title"] [["W2"; "B"]; []; ["W1"; "A"]]
           (DictReader undated)).
  - reflexivity.
  - vm_compute. reflexivity.
Defined.

(** X29: when the pending file exists and no record has [None] as its
    [publication_date] (no row stops before that column),
    [read_papers_to_notify] returns the records of the file (a permutation
    of them) in descending lexical order of the date each record holds,
    records with equal dates in their file order, and the records whose
    date is empty or absent last. *)
Theorem read_papers_to_notify_by_date (w : world) (csv_path : string)
    (f : table) :
  files w !! csv_path = Some f →
  Forall (fun x => x !! "publication_date" ≠ Some PNone)
    (DictReader (open_text f)) →
  ∃ papers,
    read_papers_to_notify csv_path w = (Ok papers, w)
    ∧ papers ≡ₚ DictReader (open_text f)
    ∧ StronglySorted (fun x y => String.le (date_of y) (date_of x)) papers
    ∧ (∀ d, List.filter (fun x => String.eqb (date_of x) d) papers
            = List.filter (fun x => String.eqb (date_of x) d)
                (DictReader (open_text f)))
    ∧ ∃ dated undated,
        papers = (dated ++ undated)%list
        ∧ Forall (fun x => date_of x ≠ "") dated
        ∧ Forall (fun x => date_of x = "") undated.
Proof.
  intros Hf Hl. unfold read_papers_to_notify. rewrite Hf. cbv zeta.
  destruct (sort_by_date _ Hl) as (papers & -> & H).
  exists papers. split; [reflexivity | exact H].
Qed.

Lemma read_papers_to_notify_by_date_witness :
  ∃ papers,
    read_papers_to_notify "union_papers_to_email.csv" three_dates_world
    = (Ok papers, three_dates_world)
    ∧ papers ≡ₚ DictReader (open_text three_dates)
    ∧ StronglySorted (fun x y => String.le (date_of y) (date_of x)) papers
    ∧ (∀ d, List.filter (fun x => String.eqb (date_of x) d) papers
            = List.filter (fun x => String.eqb (date_of x) d)
                (DictReader (open_text three_dates)))
    ∧ ∃ dated undated,
        papers = (dated ++ undated)%list
        ∧ Forall (fun x => date_of x ≠ "") dated
        ∧ Forall (fun x => date_of x = "") undated.
Proof.
  apply (read_papers_to_notify_by_date three_dates_world
           "union_papers_to_email.csv" three_dates).
  - reflexivity.
  - vm_compute. repeat constructor; discriminate.
Defined.

(** ** More on the ledger *)

Lemma add_ids_missing (rows : list paper) (s : gset value) :
  Exists (fun r => r !! "openalex_id" = None) rows →
  add_ids rows s = Raise (KeyError "openalex_id").
Proof.
  revert s. induction rows as [|r rows IH]; intros s H.
  - now apply Exists_nil in H.
  - cbn [add_ids]. destruct (r !! "openalex_id") as [id |] eqn:E; [| reflexivity].
    apply Exists_cons in H as [H | H]; [congruence | apply IH, H].
Qed.

(** X10: a ledger whose header has no [openalex_id] column and that has
    a non-blank row makes [read_emailed_papers] raise [KeyError]. *)
Theorem read_emailed_papers_no_id_column (w : world) (csv_path : string)
    (fieldnames : list string) (rows : list row) :
  files w !! csv_path = Some (fieldnames :: rows) →
  "openalex_id" ∉ fieldnames →
  Exists (fun r => is_blank r = false) rows →
  read_emailed_papers csv_path w = (Raise (KeyError "openalex_id"), w).
Proof.
  intros Hf Hk Hrow. unfold read_emailed_papers. rewrite Hf.
  rewrite add_ids_missing; [reflexivity |].
  apply (not_in_text_header fieldnames) in Hk; [| reflexivity].
  rewrite open_text_cons.
  pose proof (DictReader_no_column (map universal_newlines fieldnames)
                (open_text rows) "openalex_id" Hk) as Hn.
  destruct (DictReader (map universal_newlines fieldnames :: open_text rows))
    as [|x l] eqn:E.
  - exfalso. cbn [DictReader] in E. rewrite open_text_non_blank in E.
    apply Exists_exists in Hrow as (r & Hr & Hb).
    assert (Hin : r ∈ List.filter (fun r => negb (is_blank r)) rows).
    { apply list_elem_of_In, filter_In. split; [now apply list_elem_of_In |].
      now rewrite Hb. }
    destruct (List.filter _ rows); [now apply elem_of_nil in Hin | discriminate E].
  - apply Forall_cons in Hn as [Hx _]. now apply Exists_cons_hd.
Qed.

Lemma read_emailed_papers_no_id_column_witness :
  read_emailed_papers "emailed_papers.csv" wrong_header_world
  = (Raise (KeyError "openalex_id"), wrong_header_world).
Proof.
  apply (read_emailed_papers_no_id_column wrong_header_world
           "emailed_papers.csv" ["id"] [["W1"]]).
  - reflexivity.
  - intros H. apply elem_of_cons in H as [H | H]; [discriminate H |].
    now apply elem_of_nil in H.
  - apply Exists_cons_hd. reflexivity.
Defined.

(** X11: when a record has no [openalex_id] key, [update_emailed_papers]
    raises [KeyError] before the ledger is opened: the world is exactly as
    before. *)
Theorem update_emailed_papers_missing_id (w : world) (papers : list paper)
    (csv_path : string) :
  (∀ f, files w !! csv_path = Some f → ledger_format f) →
  Exists (fun x => x !! "openalex_id" = None) papers →
  update_emailed_papers papers csv_path w
  = (Raise (KeyError "openalex_id"), w).
Proof.
  intros Hfmt Hmiss.
  destruct (read_emailed_papers_ledger w csv_path Hfmt) as (old & Hread & _).
  unfold update_emailed_papers, bind, lift. rewrite Hread.
  now rewrite add_ids_missing.
Qed.

Lemma update_emailed_papers_missing_id_witness :
  update_emailed_papers [paper_with_id "W2"; ∅] "emailed_papers.csv"
    one_id_ledger_world
  = (Raise (KeyError "openalex_id"), one_id_ledger_world).
Proof.
  apply (update_emailed_papers_missing_id one_id_ledger_world
           [paper_with_id "W2"; ∅] "emailed_papers.csv").
  - intros f Hf. vm_compute in Hf. injection Hf as <-. reflexivity.
  - apply Exists_cons_tl, Exists_cons_hd. reflexivity.
Defined.





Lemma set_file_twice (path : string) (t : table) (w : world) :
  set_file path t (set_file path t w) = set_file path t w.
Proof. unfold set_file. cbn [files environ today network posted]. now rewrite insert_insert_eq. Qed.

Lemma strictly_sorted_unique (l1 l2 : list string) :
  StronglySorted (fun a b => String.ltb a b = true) l1 →
  StronglySorted (fun a b => String.ltb a b = true) l2 →
  (∀ id, id ∈ l1 ↔ id ∈ l2) → l1 = l2.
Proof.
  intros H1 H2 Hmem.
  apply (StronglySorted_unique_strong (fun a b => String.ltb a b = true));
    auto.
  - intros a b _ _ Hab Hba. apply ltb_true_le in Hab, Hba.
    apply (anti_symm String.le); assumption.
  - apply NoDup_Permutation; auto using strict_NoDup.
Qed.

(** X13: when the ledger is absent or has the single header
    [openalex_id], and every record has a string id without a carriage
    return, [update_emailed_papers] is idempotent: run again with the same
    records on its own result it succeeds and changes nothing. *)
Theorem update_emailed_papers_idempotent (w : world) (papers : list paper)
    (csv_path : string) :
  (∀ f, files w !! csv_path = Some f → ledger_format f) →
  Forall has_text_id papers →
  let w' := snd (update_emailed_papers papers csv_path w) in
  update_emailed_papers papers csv_path w' = (Ok tt, w').
Proof.
  intros Hfmt Htext w'.
  pose proof (has_text_id_has_id papers Htext) as Hids.
  destruct (update_emailed_papers_spec w papers csv_path Hfmt Hids)
    as (old & ids & Hread & Hupd & Hsorted & Hmem & Hold & _).
  subst w'. rewrite Hupd. cbn [snd].
  set (w1 := set_file csv_path _ w).
  destruct (update_emailed_papers_spec w1 papers csv_path)
    as (old1 & ids1 & Hread1 & Hupd1 & Hsorted1 & Hmem1 & _); [| exact Hids |].
  { intros f Hf. subst w1. cbn [set_file files] in Hf.
    rewrite lookup_insert_eq in Hf. injection Hf as <-. reflexivity. }
  subst w1.
  rewrite (update_emailed_papers_read_back w papers csv_path old ids
             Htext Hmem Hold) in Hread1.
  injection Hread1 as <-.
  assert (E : ids1 = ids).
  { apply strictly_sorted_unique; auto. intros id. rewrite Hmem1.
    rewrite elem_of_list_to_set, list_elem_of_fmap. split.
    - intros [(i & [= <-] & Hi) | Hp]; [exact Hi | apply Hmem; auto].
    - intros Hi. left. eauto. }
  rewrite Hupd1, E. now rewrite set_file_twice.
Qed.

Lemma update_emailed_papers_idempotent_witness :
  let w' := snd (update_emailed_papers [paper_with_id "W0"]
                   "emailed_papers.csv" one_id_ledger_world) in
  update_emailed_papers [paper_with_id "W0"] "emailed_papers.csv" w'
  = (Ok tt, w').
Proof.
  apply (update_emailed_papers_idempotent one_id_ledger_world
           [paper_with_id "W0"] "emailed_papers.csv").
  - intros f Hf. vm_compute in Hf. injection Hf as <-. reflexivity.
  - repeat constructor. exists "W0". split; reflexivity.
Defined.

(** X30: the ledger keeps what it held.  When the ledger is absent or has
    the single header [openalex_id] and every record has a string id,
    [update_emailed_papers] succeeds and leaves on disk the header and one
    row per id, no id twice; every id that stood on a row of the ledger
    before is on a row afterwards (as text mode hands it over: a carriage
    return in it has become a line feed), and the set read afterwards
    contains the set read before. *)
Theorem update_emailed_papers_keeps_ids (w : world) (papers : list paper)
    (csv_path : string) :
  (∀ f, files w !! csv_path = Some f → ledger_format f) →
  Forall has_id papers →
  ∃ (old new : gset value) (ids : list string) (w' : world),
    read_emailed_papers csv_path w = (Ok old, w)
    ∧ update_emailed_papers papers csv_path w = (Ok tt, w')
    ∧ files w' !! csv_path
      = Some (["openalex_id"] :: map (fun id => [id]) ids)
    ∧ NoDup ids
    ∧ (∀ f r id, files w !! csv_path = Some f → r ∈ tail f →
                 row_id r = Some id → universal_newlines id ∈ ids)
    ∧ read_emailed_papers csv_path w' = (Ok new, w')
    ∧ old ⊆ new.
Proof.
  intros Hfmt Hids.
  destruct (update_emailed_papers_spec w papers csv_path Hfmt Hids)
    as (old & ids & Hread & Hupd & Hsorted & Hmem & Hold & Hdisk).
  exists old, (list_to_set (map PStr (map universal_newlines ids))), ids,
    (set_file csv_path (["openalex_id"] :: map (fun id => [id]) ids) w).
  split; [exact Hread |]. split; [exact Hupd |].
  split; [cbn [set_file files]; apply lookup_insert_eq |].
  split; [apply strict_NoDup, Hsorted |].
  split; [exact Hdisk |].
  split; [apply read_emailed_papers_written |].
  intros v Hv. destruct (Hold v Hv) as (s & -> & Hs).
  apply elem_of_list_to_set, list_elem_of_fmap.
  exists s. split; [reflexivity |]. apply list_elem_of_fmap.
  exists s. split; [symmetry; apply universal_newlines_id, Hs |].
  apply Hmem. left. exact Hv.
Qed.

Lemma update_emailed_papers_keeps_ids_witness :
  ∃ (old new : gset value) (ids : list string) (w' : world),
    read_emailed_papers "emailed_papers.csv" one_id_ledger_world
    = (Ok old, one_id_ledger_world)
    ∧ update_emailed_papers [paper_with_id "W2"] "emailed_papers.csv"
        one_id_ledger_world = (Ok tt, w')
    ∧ files w' !! "emailed_papers.csv"
      = Some (["openalex_id"] :: map (fun id => [id]) ids)
    ∧ NoDup ids
    ∧ (∀ f r id, files one_id_ledger_world !! "emailed_papers.csv" = Some f →
                 r ∈ tail f → row_id r = Some id →
                 universal_newlines id ∈ ids)
    ∧ read_emailed_papers "emailed_papers.csv" w' = (Ok new, w')
    ∧ old ⊆ new.
Proof.
  apply (update_emailed_papers_keeps_ids one_id_ledger_world
           [paper_with_id "W2"] "emailed_papers.csv").
  - intros f Hf. vm_compute in Hf. injection Hf as <-. reflexivity.
  - repeat constructor; eexists; reflexivity.
Defined.

Lemma update_emailed_papers_untouched (w : world) (papers : list paper)
    (csv_path : string) :
  let w' := snd (update_emailed_papers papers csv_path w) in
  (∀ path, path ≠ csv_path → files w' !! path = files w !! path)
  ∧ environ w' = environ w ∧ today w' = today w ∧ posted w' = posted w.
Proof.
  cbn zeta. unfold update_emailed_papers, bind, lift, read_emailed_papers.
  assert (G : ∀ t,
    (∀ path, path ≠ csv_path →
       files (set_file csv_path t w) !! path = files w !! path)
    ∧ environ (set_file csv_path t w) = environ w
    ∧ today (set_file csv_path t w) = today w
    ∧ posted (set_file csv_path t w) = posted w).
  { intros t. repeat split. intros path Hne. cbn [set_file files].
    now rewrite lookup_insert_ne. }
  destruct (files w !! csv_path) as [f |].
  - destruct (add_ids (DictReader (open_text f)) ∅) as [s | e];
      [| now repeat split].
    destruct (add_ids papers s) as [s' | e]; [| now repeat split].
    destruct (sorted (elements s')); apply G.
  - destruct (add_ids papers ∅) as [s' | e]; [| now repeat split].
    destruct (sorted (elements s')); apply G.
Qed.

(** X14: whatever its outcome, [update_emailed_papers] touches no file
    but the ledger, and neither the environment, the date nor the POSTs. *)
Theorem update_emailed_papers_frame (w : world) (papers : list paper)
    (csv_path : string) :
  let w' := snd (update_emailed_papers papers csv_path w) in
  (∀ path, path ≠ csv_path → files w' !! path = files w !! path)
  ∧ environ w' = environ w ∧ today w' = today w ∧ posted w' = posted w.
Proof. apply update_emailed_papers_untouched. Qed.

(** ** More on the notifier *)

(** X15: [send_slack_message] returns [True] exactly when the endpoint
    answered with status 200 and a body that decodes to [ok]. *)
Theorem send_slack_message_success_iff (url : string) (m : message)
    (w : world) :
  fst (send_slack_message url m w) = Ok true
  ↔ ∃ body, network w url m = Responded 200 body ∧ decode_utf8 body = Ok "ok".
Proof. apply send_slack_message_true_iff. Qed.

(** X16: for every answer, URL error or other exception, and for an HTTP
    error whose body decodes, [send_slack_message] returns a boolean. *)
Theorem send_slack_message_returns_boolean (url : string) (m : message)
    (w : world) :
  handled (network w url m) →
  ∃ success, fst (send_slack_message url m w) = Ok success.
Proof. apply send_slack_message_handled. Qed.

Lemma utf8_valid_ascii (l : list N) :
  Forall (fun b => (b <= 127)%N) l → utf8_valid l = true.
Proof.
  induction 1 as [|b l Hb Hl IH]; [reflexivity |].
  cbn [utf8_valid]. apply N.leb_le in Hb. now rewrite Hb.
Qed.

Lemma decode_utf8_ascii (body : list Byte.byte) :
  Forall (fun b => (Byte.to_N b <= 127)%N) body →
  decode_utf8 body = Ok (string_of_list_byte body).
Proof.
  intros H. unfold decode_utf8. rewrite utf8_valid_ascii; [reflexivity |].
  apply Forall_fmap. exact H.
Qed.

(** X17: an HTTP error with an ASCII body is reported as [False], and the
    only trace of the call is the POST that was attempted. *)
Theorem send_slack_message_http_error_ascii (url : string) (m : message)
    (w : world) (code : Z) (reason : string) (body : list Byte.byte) :
  network w url m = RaisedHTTPError code reason body →
  Forall (fun b => (Byte.to_N b <= 127)%N) body →
  send_slack_message url m w = (Ok false, log_post url m w).
Proof.
  intros Hn Hb. unfold send_slack_message. cbn [log_post network].
  rewrite Hn, decode_utf8_ascii by exact Hb. reflexivity.
Qed.

Lemma send_slack_message_http_error_ascii_witness :
  send_slack_message webhook (message_of (DictReader one_paper) "May 01, 2024")
    failing_world
  = (Ok false,
     log_post webhook (message_of (DictReader one_paper) "May 01, 2024")
       failing_world).
Proof.
  apply (send_slack_message_http_error_ascii webhook _ failing_world 500
           "Internal Server Error" (list_byte_of_string "internal error")).
  - reflexivity.
  - repeat constructor; vm_compute; discriminate.
Defined.

Lemma send_slack_message_returns_boolean_witness :
  ∃ success,
    fst (send_slack_message webhook
           (message_of (DictReader one_paper) "May 01, 2024") failing_world)
    = Ok success.
Proof.
  apply (send_slack_message_returns_boolean webhook _ failing_world).
  exists "internal error". vm_compute. reflexivity.
Defined.

Lemma send_slack_message_raises (url : string) (m : message) (w : world)
    (e : exn) :
  fst (send_slack_message url m w) = Raise e → e = UnicodeDecodeError.
Proof.
  unfold send_slack_message, decode_utf8. cbn [log_post network].
  destruct (network w url m) as [status body | code reason body | r | d].
  - destruct (utf8_valid _); [| discriminate].
    destruct (_ && _); discriminate.
  - destruct (utf8_valid _); [discriminate |]. now intros [= <-].
  - discriminate.
  - discriminate.
Qed.

(** ** More on the orchestrator *)

Lemma main_exits_without_papers (w : world) :
  fst (read_papers_to_notify "union_papers_to_email.csv" w) = Ok [] →
  main w = (Raise (SystemExit 0), w).
Proof.
  intros Hr. unfold main, bind.
  pose proof (read_papers_to_notify_world "union_papers_to_email.csv" w) as Hw.
  destruct (read_papers_to_notify "union_papers_to_email.csv" w) as [r w0].
  cbn [fst snd] in Hr, Hw. subst r w0. reflexivity.
Qed.

(** X18: with no pending record (file absent, empty or holding only a
    header and blank rows) [main] ends in [sys.exit(0)] and the world is
    untouched: nothing is posted, nothing written. *)
Theorem main_no_pending (w : world) :
  fst (read_papers_to_notify "union_papers_to_email.csv" w) = Ok [] →
  main w = (Raise (SystemExit 0), w).
Proof. apply main_exits_without_papers. Qed.

Lemma main_no_pending_witness :
  main header_only_world = (Raise (SystemExit 0), header_only_world).
Proof. apply (main_no_pending header_only_world). reflexivity. Defined.

Lemma main_exits_without_webhook (w : world) (papers : list paper) :
  fst (read_papers_to_notify "union_papers_to_email.csv" w) = Ok papers →
  papers ≠ [] →
  environ w !! "SLACK_WEBHOOK_URL" = None
  ∨ environ w !! "SLACK_WEBHOOK_URL" = Some "" →
  main w = (Raise (SystemExit 1), w).
Proof.
  intros Hr Hne Henv. unfold main, bind.
  pose proof (read_papers_to_notify_world "union_papers_to_email.csv" w) as Hw.
  destruct (read_papers_to_notify "union_papers_to_email.csv" w) as [r w0].
  cbn [fst snd] in Hr, Hw. subst r w0.
  destruct papers as [|x papers]; [congruence |]. cbn [is_empty].
  unfold getenv. destruct Henv as [-> | ->]; reflexivity.
Qed.

(** X19: with pending records and [SLACK_WEBHOOK_URL] unset or empty,
    [main] ends in [sys.exit(1)] and the world is untouched. *)
Theorem main_missing_webhook (w : world) (papers : list paper) :
  fst (read_papers_to_notify "union_papers_to_email.csv" w) = Ok papers →
  papers ≠ [] →
  environ w !! "SLACK_WEBHOOK_URL" = None
  ∨ environ w !! "SLACK_WEBHOOK_URL" = Some "" →
  main w = (Raise (SystemExit 1), w).
Proof. apply main_exits_without_webhook. Qed.

Lemma main_missing_webhook_witness :
  main empty_webhook_world = (Raise (SystemExit 1), empty_webhook_world).
Proof.
  apply (main_missing_webhook empty_webhook_world (DictReader one_paper)).
  - vm_compute. reflexivity.
  - vm_compute. discriminate.
  - right. reflexivity.
Defined.

(** What [main] does once the papers are read and the URL is known. *)
Lemma main_after_send (w : world) (papers : list paper) (url : string) :
  fst (read_papers_to_notify "union_papers_to_email.csv" w) = Ok papers →
  papers ≠ [] →
  environ w !! "SLACK_WEBHOOK_URL" = Some url →
  url ≠ "" →
  main w
  = match fst (send_slack_message url (message_of papers (today w)) w) with
    | Ok true =>
        update_emailed_papers papers "emailed_papers.csv"
          (log_post url (message_of papers (today w)) w)
    | Ok false =>
        (Raise (SystemExit 1), log_post url (message_of papers (today w)) w)
    | Raise e => (Raise e, log_post url (message_of papers (today w)) w)
    end.
Proof.
  intros Hr Hne Henv Hurl. unfold main, bind.
  pose proof (read_papers_to_notify_world "union_papers_to_email.csv" w) as Hw.
  destruct (read_papers_to_notify "union_papers_to_email.csv" w) as [r w0].
  cbn [fst snd] in Hr, Hw. subst r w0.
  destruct papers as [|x papers]; [congruence |]. cbn [is_empty].
  unfold getenv. rewrite Henv. cbn [value_of_option truthy format_value].
  destruct (String.eqb_spec url ""); [congruence |]. cbn [negb].
  rewrite format_slack_message_eq.
  pose proof (send_slack_message_world url (message_of (x :: papers) (today w)) w) as Hs.
  destruct (send_slack_message url _ w) as [[[|] | e] w1];
    cbn [fst snd] in Hs |- *; subst w1; reflexivity.
Qed.

(** X20: a successful run.  With pending records that all have an id, the
    URL set, a ledger absent or in the documented shape and a send that
    returns [True], [main] returns normally (exit status 0), has posted
    exactly the formatted message, and the ledger read afterwards holds
    the id of every pending record. *)
Theorem main_success (w : world) (papers : list paper) (url : string) :
  fst (read_papers_to_notify "union_papers_to_email.csv" w) = Ok papers →
  papers ≠ [] →
  environ w !! "SLACK_WEBHOOK_URL" = Some url →
  url ≠ "" →
  fst (send_slack_message url (message_of papers (today w)) w) = Ok true →
  (∀ f, files w !! "emailed_papers.csv" = Some f → ledger_format f) →
  Forall has_id papers →
  fst (main w) = Ok tt
  ∧ exit_status (fst (main w)) = 0%Z
  ∧ posted (snd (main w)) = (url, message_of papers (today w)) :: posted w
  ∧ ∃ ledger,
      fst (read_emailed_papers "emailed_papers.csv" (snd (main w))) = Ok ledger
      ∧ ∀ x id, x ∈ papers → x !! "openalex_id" = Some (PStr id) →
                PStr id ∈ ledger.
Proof.
  intros Hr Hne Henv Hurl Hsend Hfmt Hids.
  pose proof (read_papers_to_notify_text_ids _ w papers Hr Hids) as Htext.
  rewrite (main_after_send w papers url Hr Hne Henv Hurl), Hsend.
  set (w1 := log_post url (message_of papers (today w)) w).
  destruct (update_emailed_papers_spec w1 papers "emailed_papers.csv"
              Hfmt Hids)
    as (old & ids & _ & Hupd & _ & Hmem & Hold & _).
  rewrite Hupd. cbn [fst snd]. repeat split.
  - exists (list_to_set (map PStr ids)).
    rewrite (update_emailed_papers_read_back w1 papers "emailed_papers.csv"
               old ids Htext Hmem Hold).
    split; [reflexivity |].
    intros x id Hx Hid. apply elem_of_list_to_set, list_elem_of_fmap.
    exists id. split; [reflexivity |]. apply Hmem. right. eauto.
Qed.

Lemma main_success_witness :
  fst (main accepting_world) = Ok tt
  ∧ exit_status (fst (main accepting_world)) = 0%Z
  ∧ posted (snd (main accepting_world))
    = (webhook, message_of (DictReader one_paper) (today accepting_world))
      :: posted accepting_world
  ∧ ∃ ledger,
      fst (read_emailed_papers "emailed_papers.csv" (snd (main accepting_world)))
      = Ok ledger
      ∧ ∀ x id, x ∈ DictReader one_paper →
                x !! "openalex_id" = Some (PStr id) → PStr id ∈ ledger.
Proof.
  apply (main_success accepting_world (DictReader one_paper) webhook).
  - vm_compute. reflexivity.
  - vm_compute. discriminate.
  - vm_compute. reflexivity.
  - vm_compute. discriminate.
  - vm_compute. reflexivity.
  - intros f Hf. vm_compute in Hf. discriminate Hf.
  - repeat constructor. exists "W100". vm_compute. reflexivity.
Defined.

Lemma read_papers_to_notify_raises (csv_path : string) (w : world) (e : exn) :
  fst (read_papers_to_notify csv_path w) = Raise e → e = TypeError.
Proof.
  unfold read_papers_to_notify. destruct (files w !! csv_path) as [f |];
    [| discriminate].
  cbn [fst]. unfold list_sort.
  pose proof (sort_stable_outcome publication_date_key
                (rev (DictReader (open_text f)))) as H.
  destruct (sort_stable _ _); cbn [rbind]; [discriminate |]. now intros [= <-].
Qed.

Lemma add_ids_raises (rows : list paper) (s : gset value) (e : exn) :
  add_ids rows s = Raise e → e = KeyError "openalex_id".
Proof.
  revert s. induction rows as [|r rows IH]; intros s; cbn [add_ids];
    [discriminate |].
  destruct (r !! "openalex_id"); [apply IH | now intros [= <-]].
Qed.

Lemma update_emailed_papers_raises (papers : list paper) (csv_path : string)
    (w : world) (e : exn) :
  fst (update_emailed_papers papers csv_path w) = Raise e →
  e = KeyError "openalex_id" ∨ e = TypeError.
Proof.
  unfold update_emailed_papers, bind, lift, read_emailed_papers.
  assert (G : ∀ s, fst (match add_ids papers s with
                        | Ok a =>
                            match sorted (elements a) with
                            | Ok ids =>
                                (Ok tt,
                                 set_file csv_path
                                   (["openalex_id"]
                                    :: map (fun paper_id => [csv_field paper_id]) ids) w)
                            | Raise e0 =>
                                (Raise e0, set_file csv_path [["openalex_id"]] w)
                            end
                        | Raise e0 => (Raise e0, w)
                        end) = Raise e →
               e = KeyError "openalex_id" ∨ e = TypeError).
  { intros s. destruct (add_ids papers s) as [a | e0] eqn:Ha.
    - unfold sorted, list_sort.
      pose proof (sort_stable_outcome (fun v : value => v) (elements a)) as H.
      destruct (sort_stable _ _); [discriminate |].
      cbn [fst]. intros [= <-]. now right.
    - cbn [fst]. intros [= <-]. left. eapply add_ids_raises, Ha. }
  destruct (files w !! csv_path) as [f |]; [| apply G].
  destruct (add_ids (DictReader (open_text f)) ∅) as [s | e0] eqn:Hs;
    [apply G |].
  cbn [fst]. intros [= <-]. left. eapply add_ids_raises, Hs.
Qed.

(** The three ways a run can leave the world, with what the run read and
    sent. *)
Lemma main_cases (w : world) :
  (snd (main w) = w
   ∧ ((fst (read_papers_to_notify "union_papers_to_email.csv" w)
       = Raise TypeError
       ∧ fst (main w) = Raise TypeError)
      ∨ (fst (read_papers_to_notify "union_papers_to_email.csv" w) = Ok []
         ∧ fst (main w) = Raise (SystemExit 0))
      ∨ (∃ papers,
           papers ≠ []
           ∧ fst (read_papers_to_notify "union_papers_to_email.csv" w)
             = Ok papers
           ∧ (environ w !! "SLACK_WEBHOOK_URL" = None
              ∨ environ w !! "SLACK_WEBHOOK_URL" = Some "")
           ∧ fst (main w) = Raise (SystemExit 1))))
  ∨ (∃ url papers,
       (papers ≠ []
        ∧ fst (read_papers_to_notify "union_papers_to_email.csv" w) = Ok papers
        ∧ environ w !! "SLACK_WEBHOOK_URL" = Some url
        ∧ url ≠ "")
       ∧ snd (main w) = log_post url (message_of papers (today w)) w
       ∧ ((fst (send_slack_message url (message_of papers (today w)) w) = Ok false
           ∧ fst (main w) = Raise (SystemExit 1))
          ∨ (fst (send_slack_message url (message_of papers (today w)) w)
             = Raise UnicodeDecodeError
             ∧ fst (main w) = Raise UnicodeDecodeError)))
  ∨ (∃ url papers,
       (papers ≠ []
        ∧ fst (read_papers_to_notify "union_papers_to_email.csv" w) = Ok papers
        ∧ environ w !! "SLACK_WEBHOOK_URL" = Some url
        ∧ url ≠ "")
       ∧ fst (send_slack_message url (message_of papers (today w)) w) = Ok true
       ∧ main w
         = update_emailed_papers papers "emailed_papers.csv"
             (log_post url (message_of papers (today w)) w)).
Proof.
  destruct (fst (read_papers_to_notify "union_papers_to_email.csv" w))
    as [papers | e] eqn:Hr.
  - destruct papers as [|x papers].
    { left. rewrite (main_exits_without_papers w Hr). auto. }
    destruct (environ w !! "SLACK_WEBHOOK_URL") as [url |] eqn:Henv.
    + destruct (String.eqb_spec url "") as [-> | Hurl].
      { left.
        rewrite (main_exits_without_webhook w (x :: papers) Hr ltac:(discriminate)
                   (or_intror Henv)).
        split; [reflexivity |]. right. right. exists (x :: papers).
        split; [discriminate |]. auto. }
      rewrite (main_after_send w (x :: papers) url Hr ltac:(discriminate) Henv Hurl).
      assert (Hrun : x :: papers ≠ [] ∧ Ok (x :: papers) = Ok (x :: papers)
                     ∧ Some url = Some url ∧ url ≠ "")
        by (split; [discriminate | auto]).
      destruct (fst (send_slack_message url _ w)) as [[|] | e] eqn:Hs.
      * right. right. exists url, (x :: papers). auto.
      * right. left. exists url, (x :: papers). auto.
      * right. left. exists url, (x :: papers).
        pose proof (send_slack_message_raises _ _ _ _ Hs) as ->. auto.
    + left.
      rewrite (main_exits_without_webhook w (x :: papers) Hr ltac:(discriminate)
                 (or_introl Henv)).
      split; [reflexivity |]. right. right. exists (x :: papers).
      split; [discriminate |]. auto.
  - left. apply read_papers_to_notify_raises in Hr as He. subst e.
    unfold main, bind.
    pose proof (read_papers_to_notify_world "union_papers_to_email.csv" w) as Hw.
    destruct (read_papers_to_notify "union_papers_to_email.csv" w) as [r w0].
    cbn [fst snd] in Hr, Hw. subst r w0. auto.
Qed.

(** X21: the two exits of [main].  When a run ends in [sys.exit(0)], no
    pending record was read and nothing was posted or written; when it ends
    in [sys.exit(1)], records were read and either [SLACK_WEBHOOK_URL] is
    unset or empty and nothing was posted or written, or the send of the
    message of these records to that URL returned [False]. *)
Theorem main_exit_status (w : world) (code : Z) :
  fst (main w) = Raise (SystemExit code) →
  (code = 0%Z
   ∧ fst (read_papers_to_notify "union_papers_to_email.csv" w) = Ok []
   ∧ snd (main w) = w)
  ∨ (code = 1%Z
     ∧ ∃ papers,
         papers ≠ []
         ∧ fst (read_papers_to_notify "union_papers_to_email.csv" w)
           = Ok papers
         ∧ (((environ w !! "SLACK_WEBHOOK_URL" = None
              ∨ environ w !! "SLACK_WEBHOOK_URL" = Some "")
             ∧ snd (main w) = w)
            ∨ ∃ url,
                environ w !! "SLACK_WEBHOOK_URL" = Some url
                ∧ url ≠ ""
                ∧ fst (send_slack_message url (message_of papers (today w)) w)
                  = Ok false
                ∧ snd (main w)
                  = log_post url (message_of papers (today w)) w)).
Proof.
  intros Hexit.
  destruct (main_cases w)
    as [[E H] | [(url & papers & Hrun & E & H) | (url & papers & _ & _ & H)]].
  - destruct H as [[_ H] | [[Hr H] | (papers & Hne & Hr & Henv & H)]];
      rewrite H in Hexit.
    + discriminate Hexit.
    + injection Hexit as <-. left. auto.
    + injection Hexit as <-. right. split; [reflexivity |].
      exists papers. auto.
  - destruct Hrun as (Hne & Hr & Henv & Hurl).
    destruct H as [[Hs H] | [_ H]]; rewrite H in Hexit; [| discriminate Hexit].
    injection Hexit as <-. right. split; [reflexivity |].
    exists papers. split; [exact Hne |]. split; [exact Hr |]. right.
    exists url. auto.
  - rewrite H in Hexit.
    pose proof (update_emailed_papers_raises papers "emailed_papers.csv"
                  (log_post url (message_of papers (today w)) w)) as Hu.
    destruct (Hu _ Hexit) as [Hu' | Hu']; discriminate Hu'.
Qed.

Lemma main_exit_status_witness :
  (1%Z = 0%Z
   ∧ fst (read_papers_to_notify "union_papers_to_email.csv" failing_world)
     = Ok []
   ∧ snd (main failing_world) = failing_world)
  ∨ (1%Z = 1%Z
     ∧ ∃ papers,
         papers ≠ []
         ∧ fst (read_papers_to_notify "union_papers_to_email.csv" failing_world)
           = Ok papers
         ∧ (((environ failing_world !! "SLACK_WEBHOOK_URL" = None
              ∨ environ failing_world !! "SLACK_WEBHOOK_URL" = Some "")
             ∧ snd (main failing_world) = failing_world)
            ∨ ∃ url,
                environ failing_world !! "SLACK_WEBHOOK_URL" = Some url
                ∧ url ≠ ""
                ∧ fst (send_slack_message url
                         (message_of papers (today failing_world))
                         failing_world)
                  = Ok false
                ∧ snd (main failing_world)
                  = log_post url (message_of papers (today failing_world))
                      failing_world)).
Proof.
  apply (main_exit_status failing_world 1).
  vm_compute. reflexivity.
Defined.

(** X22: [main] never changes a file other than [emailed_papers.csv], nor
    the environment; and it changes the files at all only when it read
    pending records, [SLACK_WEBHOOK_URL] is set and not empty, and the send
    of the message of these records to that URL returned [True]. *)
Theorem main_writes_only_the_ledger (w : world) :
  (∀ path, path ≠ "emailed_papers.csv" →
     files (snd (main w)) !! path = files w !! path)
  ∧ environ (snd (main w)) = environ w
  ∧ (files (snd (main w)) ≠ files w →
     ∃ url papers,
       (papers ≠ []
        ∧ fst (read_papers_to_notify "union_papers_to_email.csv" w) = Ok papers
        ∧ environ w !! "SLACK_WEBHOOK_URL" = Some url
        ∧ url ≠ "")
       ∧ fst (send_slack_message url (message_of papers (today w)) w) = Ok true).
Proof.
  destruct (main_cases w)
    as [[E _] | [(url & papers & _ & E & _) | (url & papers & Hrun & Hs & E)]].
  - rewrite E. repeat split. congruence.
  - rewrite E. repeat split. cbn [log_post files]. congruence.
  - rewrite E.
    destruct (update_emailed_papers_untouched
                (log_post url (message_of papers (today w)) w) papers
                "emailed_papers.csv") as (Hf & He & _).
    cbn zeta in Hf, He. split; [exact Hf |]. split; [exact He |]. eauto.
Qed.

(** X23: a run adds at most one POST to those already made (there is no
    retry), and exactly one when [main] returns normally. *)
Theorem main_posts_at_most_once (w : world) :
  ∃ posts,
    posted (snd (main w)) = (posts ++ posted w)%list
    ∧ (length posts ≤ 1)%nat
    ∧ (fst (main w) = Ok tt → length posts = 1%nat).
Proof.
  exists (posts_of_run w). split; [apply main_posted |].
  split.
  - unfold posts_of_run.
    destruct (fst (read_papers_to_notify _ w)); [| cbn; lia].
    destruct (is_empty _); [cbn; lia |].
    destruct (truthy _); cbn; lia.
  - intros Hok.
    destruct (main_cases w)
      as [[_ H] | [(url & papers & _ & _ & H) | (url & papers & Hne & Hs & E)]].
    + rewrite Hok in H.
      destruct H as [[_ H] | [[_ H] | (papers & _ & _ & _ & H)]];
        discriminate H.
    + rewrite Hok in H. destruct H as [[_ H] | [_ H]]; discriminate H.
    + pose proof (main_posted w) as Hp. rewrite E in Hp.
      rewrite update_emailed_papers_posted in Hp. cbn [log_post posted] in Hp.
      assert (Hl : length ((url, message_of papers (today w)) :: posted w)
                   = length (posts_of_run w ++ posted w)%list)
        by now rewrite Hp.
      rewrite length_app in Hl. cbn [length] in Hl. lia.
Qed.

(** X24: [main] returns normally only when it read pending records,
    [SLACK_WEBHOOK_URL] is set and not empty, and the endpoint at that URL
    answered the message of these records with status 200 and body [ok]. *)
Theorem main_returns_only_when_accepted (w : world) :
  fst (main w) = Ok tt →
  ∃ url papers body,
    (papers ≠ []
     ∧ fst (read_papers_to_notify "union_papers_to_email.csv" w) = Ok papers
     ∧ environ w !! "SLACK_WEBHOOK_URL" = Some url
     ∧ url ≠ "")
    ∧ network w url (message_of papers (today w)) = Responded 200 body
    ∧ decode_utf8 body = Ok "ok".
Proof.
  intros Hok.
  destruct (main_cases w)
    as [[_ H] | [(url & papers & _ & _ & H) | (url & papers & Hrun & Hs & E)]].
  - rewrite Hok in H.
    destruct H as [[_ H] | [[_ H] | (papers & _ & _ & _ & H)]]; discriminate H.
  - rewrite Hok in H. destruct H as [[_ H] | [_ H]]; discriminate H.
  - apply send_slack_message_true_iff in Hs as (body & Hn & Hd).
    exists url, papers, body. auto.
Qed.

Lemma main_returns_only_when_accepted_witness :
  ∃ url papers body,
    (papers ≠ []
     ∧ fst (read_papers_to_notify "union_papers_to_email.csv" accepting_world)
       = Ok papers
     ∧ environ accepting_world !! "SLACK_WEBHOOK_URL" = Some url
     ∧ url ≠ "")
    ∧ network accepting_world url (message_of papers (today accepting_world))
      = Responded 200 body
    ∧ decode_utf8 body = Ok "ok".
Proof.
  apply (main_returns_only_when_accepted accepting_world).
  vm_compute. reflexivity.
Defined.

(** ** More on the formatter *)

Lemma lookup_after_three {A} (a b c : A) (rest : list A) (n : nat) :
  ([a; b; c] ++ rest)%list !! (3 + n)%nat = rest !! n.
Proof. reflexivity. Qed.

(** X25: the layout of the message.  The fallback text holds the date
    only; there are five blocks plus one per paper: the header, the
    summary, a divider, the paper blocks in the order of the list (block
    [3 + i] is the text of paper [i]), a divider and the context line. *)
Theorem format_slack_message_blocks (papers : list paper) (w : world) :
  ∃ message,
    format_slack_message papers w = (Ok message, w)
    ∧ msg_text message = "New union papers for the week ending " ++ today w
    ∧ length (msg_blocks message) = (length papers + 5)%nat
    ∧ msg_blocks message !! 0%nat
      = Some (BHeader (PlainText "📚 New Union Papers Detected" true))
    ∧ msg_blocks message !! 2%nat = Some BDivider
    ∧ (∀ i x, papers !! i = Some x →
              msg_blocks message !! (3 + i)%nat
              = Some (BSection (Mrkdwn (paper_text x))))
    ∧ msg_blocks message !! (3 + length papers)%nat = Some BDivider
    ∧ msg_blocks message !! (4 + length papers)%nat
      = Some (BContext
                [Mrkdwn "_Automated notification from the Union Papers tracking system_"]).
Proof.
  exists (message_of papers (today w)).
  split; [apply format_slack_message_eq |]. split; [reflexivity |].
  unfold message_of. cbn [msg_blocks].
  split; [| split; [reflexivity | split; [reflexivity |]]].
  { rewrite !length_app, length_map. cbn [length]. lia. }
  pose proof (@lookup_after_three) as Hskip.
  split; [| split].
  - intros i x Hx. rewrite Hskip.
    rewrite lookup_app_l by (rewrite length_map; eapply lookup_lt_Some, Hx).
    now rewrite list_lookup_fmap, Hx.
  - rewrite Hskip.
    rewrite lookup_app_r by (rewrite length_map; lia).
    rewrite length_map, Nat.sub_diag. reflexivity.
  - change (4 + length papers)%nat with (3 + S (length papers))%nat.
    rewrite Hskip.
    rewrite lookup_app_r by (rewrite length_map; lia).
    rewrite length_map.
    replace (S (length papers) - length papers)%nat with 1%nat by lia.
    reflexivity.
Qed.

Lemma contains_char_app (c : ascii) (a b : string) :
  contains (String c "") (a ++ b)
  = contains (String c "") a || contains (String c "") b.
Proof.
  induction a as [|x a IH]; rewrite ?append_nil, ?append_cons.
  - reflexivity.
  - rewrite !contains_char_cons, IH. now rewrite orb_assoc.
Qed.

(** X26: without a DOI, and with a date holding neither [<] nor [>], the
    block of a paper holds neither character, whatever the title, the
    authors and the journal contain: these fields cannot open a link or a
    mention. *)
Theorem paper_text_no_markup_injection (x : paper) :
  truthy (dict_get x "doi" (PStr "")) = false →
  contains "<" (format_value (dict_get x "publication_date" (PStr ""))) = false →
  contains ">" (format_value (dict_get x "publication_date" (PStr ""))) = false →
  contains "<" (paper_text x) = false ∧ contains ">" (paper_text x) = false.
Proof.
  intros Hdoi Hlt Hgt. unfold paper_text. cbv zeta. rewrite Hdoi.
  cbn [andb orb].
  destruct (escape_value_no_angle (dict_get x "title" (PStr ""))) as [T1 T2].
  destruct (escape_value_no_angle (dict_get x "authors" (PStr ""))) as [A1 A2].
  destruct (escape_value_no_angle (dict_get x "journal" (PStr ""))) as [J1 J2].
  destruct (nonempty (escape_slack_text (dict_get x "journal" (PStr ""))));
    destruct (truthy (dict_get x "publication_date" (PStr "")));
    rewrite !contains_char_app, ?T1, ?T2, ?A1, ?A2, ?J1, ?J2, ?Hlt, ?Hgt;
    split; reflexivity.
Qed.

Lemma paper_text_no_markup_injection_witness :
  contains "<" (paper_text mention_paper) = false
  ∧ contains ">" (paper_text mention_paper) = false.
Proof.
  apply (paper_text_no_markup_injection mention_paper); reflexivity.
Defined.

(** X27: with a non-empty journal and a date, the block is the two
    header lines, a journal segment that holds the document emoji, the
    separator and the date. *)
Theorem paper_text_separator_after_journal (x : paper) (date : string) :
  escape_slack_text (dict_get x "journal" (PStr "")) ≠ "" →
  x !! "publication_date" = Some (PStr date) → date ≠ "" →
  ∃ segment,
    contains "📄 " segment = true
    ∧ paper_text x
      = (("*" ++ escape_slack_text (dict_get x "authors" (PStr "")) ++ "*" ++ LF
          ++ "_" ++ escape_slack_text (dict_get x "title" (PStr "")) ++ "_" ++ LF)
         ++ segment)
        ++ "  |  📅 " ++ date.
Proof. apply paper_text_date_after_journal. Qed.

Lemma paper_text_separator_after_journal_witness :
  ∃ segment,
    contains "📄 " segment = true
    ∧ paper_text journal_only_paper
      = (("*" ++ escape_slack_text (dict_get journal_only_paper "authors" (PStr ""))
          ++ "*" ++ LF
          ++ "_" ++ escape_slack_text (dict_get journal_only_paper "title" (PStr ""))
          ++ "_" ++ LF)
         ++ segment)
        ++ "  |  📅 " ++ "2024-05-01".
Proof.
  apply (paper_text_separator_after_journal journal_only_paper "2024-05-01").
  - vm_compute. discriminate.
  - reflexivity.
  - discriminate.
Defined.

(** X28: with neither DOI nor journal and a date, the date segment
    follows the two header lines directly, without separator. *)
Theorem paper_text_date_starts_line (x : paper) (date : string) :
  truthy (dict_get x "doi" (PStr "")) = false →
  escape_slack_text (dict_get x "journal" (PStr "")) = "" →
  x !! "publication_date" = Some (PStr date) → date ≠ "" →
  paper_text x
  = ("*" ++ escape_slack_text (dict_get x "authors" (PStr "")) ++ "*" ++ LF
     ++ "_" ++ escape_slack_text (dict_get x "title" (PStr "")) ++ "_" ++ LF)
    ++ "📅 " ++ date.
Proof. apply paper_text_date_alone. Qed.

Lemma paper_text_date_starts_line_witness :
  paper_text date_only_paper
  = ("*" ++ escape_slack_text (dict_get date_only_paper "authors" (PStr ""))
     ++ "*" ++ LF
     ++ "_" ++ escape_slack_text (dict_get date_only_paper "title" (PStr ""))
     ++ "_" ++ LF)
    ++ "📅 " ++ "2024-05-01".
Proof.
  apply (paper_text_date_starts_line date_only_paper "2024-05-01").
  - reflexivity.
  - reflexivity.
  - reflexivity.
  - discriminate.
Defined.
